(** * Event messaging layer of the product service: publisher, consumer, trace bridge

    A shallow embedding of the TypeScript event library
    ([events.ts], [tracing.ts], the [EventPublisher] and the
    [RedisStreamsConsumer]) and the properties its specification states.

    JavaScript values are an inductive type, objects are finite maps,
    exceptions are an explicit completion, and every effect (log lines, Redis
    commands, span operations, handler invocations) is appended to a trace
    kept in the world state. The platform the library runs on (JSON, the
    OpenTelemetry propagator and id generator, uuid, the clock) is a class
    of parameters; a reference instance is given for closed examples. *)

From Stdlib Require Import ZArith String Ascii List.
From stdpp Require Import base option list strings gmap fin_maps pretty.

#[local] Set Warnings "-register-all".
#[local] Open Scope string_scope.
#[local] Open Scope list_scope.

(** ** JavaScript values *)

Module Js.

Inductive JsValue : Type :=
  | JUndefined
  | JNull
  | JBool (b : bool)
  | JNum (n : Z)
  | JStr (s : string)
  | JArr (l : list JsValue)
  | JObj (m : gmap string JsValue).

(** The completion of an expression or statement: a value or a thrown value. *)
Inductive Completion (A : Type) : Type :=
  | Normal (a : A)
  | Throw (e : JsValue).
Arguments Normal {A} a.
Arguments Throw {A} e.

#[global] Instance Completion_ret : MRet Completion := fun A a => Normal a.
#[global] Instance Completion_bind : MBind Completion :=
  fun A B k c => match c with Normal a => k a | Throw e => Throw e end.

(** An object literal [{ k1: v1, ... }]. *)
Definition obj (l : list (string * JsValue)) : JsValue := JObj (list_to_map l).

Definition Error_ (name message : string) : JsValue :=
  obj [("name", JStr name); ("message", JStr message)].
Definition TypeError (message : string) : JsValue := Error_ "TypeError" message.
Definition SyntaxError (message : string) : JsValue := Error_ "SyntaxError" message.

Definition is_empty (s : string) : bool :=
  match s with EmptyString => true | String _ _ => false end.

(** ToBoolean. *)
Definition truthy (v : JsValue) : bool :=
  match v with
  | JUndefined | JNull => false
  | JBool b => b
  | JNum n => negb (n =? 0)%Z
  | JStr s => negb (is_empty s)
  | JArr _ | JObj _ => true
  end.

(** [a || b] on values already evaluated. *)
Definition js_or (a b : JsValue) : JsValue := if truthy a then a else b.

Fixpoint str_join (sep : string) (l : list string) : string :=
  match l with
  | [] => ""
  | [x] => x
  | x :: rest => x +:+ sep +:+ str_join sep rest
  end.

(** ToString, as a template literal applies it to a value that was parsed
    from JSON. No property of such a value is callable, so an object with an
    own [toString] has no primitive value: [Object.prototype.toString] is
    hidden and [valueOf] returns the object. Every other object is converted
    by [Object.prototype.toString]. An array is joined by
    [Array.prototype.join], which converts its elements and writes nothing
    for [null] and [undefined]. *)
Fixpoint has_primitive_value (v : JsValue) : bool :=
  match v with
  | JArr l => forallb has_primitive_value l
  | JObj m => negb (bool_decide (is_Some (m !! "toString")))
  | _ => true
  end.

(** The string the conversion gives when it completes. *)
Fixpoint to_string (v : JsValue) : string :=
  match v with
  | JUndefined => "undefined"
  | JNull => "null"
  | JBool true => "true"
  | JBool false => "false"
  | JNum n => pretty n
  | JStr s => s
  | JArr l =>
      str_join "," (map (fun x => match x with
                              | JUndefined | JNull => ""
                              | _ => to_string x
                              end) l)
  | JObj _ => "[object Object]"
  end.

(** What a conversion that does not complete throws. *)
Definition no_primitive_value : string := "Cannot convert object to primitive value".

Definition ToString (v : JsValue) : Completion string :=
  if has_primitive_value v then Normal (to_string v)
  else Throw (TypeError no_primitive_value).

(** [v.k] for the property names this library reads (none of them is
    defined on a prototype): a property read of [undefined] or [null] throws,
    a primitive or an array has no such property. *)
Definition get_prop (v : JsValue) (k : string) : Completion JsValue :=
  match v with
  | JUndefined =>
      Throw (TypeError ("Cannot read properties of undefined (reading '" +:+ k +:+ "')"))
  | JNull =>
      Throw (TypeError ("Cannot read properties of null (reading '" +:+ k +:+ "')"))
  | JObj m => Normal (default JUndefined (m !! k))
  | _ => Normal JUndefined
  end.

(** [String.prototype.includes]. *)
Fixpoint String_includes (needle hay : string) : bool :=
  String.prefix needle hay ||
  match hay with
  | EmptyString => false
  | String _ rest => String_includes needle rest
  end.

(** The method call [recv.includes(arg)] with a string argument: strings and
    arrays have the method, on [undefined] and [null] the property read
    throws, on anything else the call does. *)
Definition call_includes (recv : JsValue) (arg : string) : Completion bool :=
  match recv with
  | JStr s => Normal (String_includes arg s)
  | JArr l =>
      Normal (existsb (fun x => match x with
                                | JStr t => String.eqb t arg
                                | _ => false
                                end) l)
  | JUndefined =>
      Throw (TypeError "Cannot read properties of undefined (reading 'includes')")
  | JNull =>
      Throw (TypeError "Cannot read properties of null (reading 'includes')")
  | _ => Throw (TypeError "error.message.includes is not a function")
  end.

(** [String.prototype.split] with a one-character separator. *)
Fixpoint String_split (sep : ascii) (s : string) : list string :=
  match s with
  | EmptyString => [""]
  | String c rest =>
      if Ascii.eqb c sep then "" :: String_split sep rest
      else match String_split sep rest with
           | [] => [String c ""]
           | h :: t => String c h :: t
           end
  end.

(** [a[0]] inside a template literal. *)
Definition index0 (l : list string) : string :=
  match l with
  | [] => "undefined"
  | x :: _ => x
  end.

(** [a || b] on optional strings: absent and empty are both falsy. *)
Definition or_str (a : option string) (b : string) : string :=
  match a with
  | Some s => if is_empty s then b else s
  | None => b
  end.

(** What [JSON.parse(JSON.stringify(v))] returns for a value of this type: a
    property holding [undefined] is gone, an array element holding
    [undefined] is [null]. *)
Fixpoint json_image (v : JsValue) : JsValue :=
  match v with
  | JArr l =>
      JArr (map (fun x => match x with
                          | JUndefined => JNull
                          | _ => json_image x
                          end) l)
  | JObj m =>
      JObj (omap (fun x => match x with
                           | JUndefined => None
                           | _ => Some (json_image x)
                           end) m)
  | _ => v
  end.

(** What [json_image] does to the properties of an object. *)
Definition carried (x : JsValue) : option JsValue :=
  match x with
  | JUndefined => None
  | _ => Some (json_image x)
  end.

Definition of_option (o : option string) : JsValue :=
  match o with
  | Some s => JStr s
  | None => JUndefined
  end.

End Js.
Export Js.

(** ** OpenTelemetry API types *)

Inductive SpanKind : Type := INTERNAL | SERVER | CLIENT | PRODUCER | CONSUMER.

Record SpanContext : Type := {
  traceId : string;
  spanId : string;
  isRemote : bool;
}.

(** A context carries at most one span context; [None] is the root context. *)
Abbreviation Context := (option SpanContext).

Record Span : Type := {
  span_no : nat;
  spanContext : SpanContext;
}.

(** A span context as a propagator hands it over after extraction:
    [spanContext.isRemote = true]. *)
Definition remote (sc : SpanContext) : SpanContext :=
  {| traceId := traceId sc; spanId := spanId sc; isRemote := true |}.

(** ** events.ts *)

(** The envelope at run time: the consumer builds it from untyped parsed
    data, so every field holds an arbitrary value. *)
Record EventEnvelope : Type := {
  eventId : JsValue;
  eventType : JsValue;
  timestamp : JsValue;
  source : JsValue;
  version : JsValue;
  correlationId : JsValue;
  causationId : JsValue;
  traceContext : JsValue;
  metadata : JsValue;
  data : JsValue;
}.

(** The envelope as the object [JSON.stringify] receives: all ten properties
    are present, the absent optional ones hold [undefined]. *)
Definition envelope_object (e : EventEnvelope) : JsValue :=
  obj [("eventId", eventId e); ("eventType", eventType e);
       ("timestamp", timestamp e); ("source", source e);
       ("version", version e); ("correlationId", correlationId e);
       ("causationId", causationId e); ("traceContext", traceContext e);
       ("metadata", metadata e); ("data", data e)].

(** Modelled from the spec: the snake_case encoding of an envelope, which
    the publishers written in other languages produce; they are not part of
    this repository. The five fields with two spellings take their
    snake_case name. *)
Definition envelope_object_snake (e : EventEnvelope) : JsValue :=
  obj [("event_id", eventId e); ("event_type", eventType e);
       ("timestamp", timestamp e); ("source", source e);
       ("version", version e); ("correlation_id", correlationId e);
       ("causation_id", causationId e); ("trace_context", traceContext e);
       ("metadata", metadata e); ("data", data e)].

Definition is_string (v : JsValue) : bool :=
  match v with JStr _ => true | _ => false end.
Definition is_optional_string (v : JsValue) : bool :=
  match v with JStr _ | JUndefined => true | _ => false end.
Definition is_optional_object (v : JsValue) : bool :=
  match v with JObj _ | JUndefined => true | _ => false end.

(** A parsed value that is neither an object nor [null]: it has none of the
    properties of an envelope. *)
Definition has_no_properties (raw : JsValue) : bool :=
  match raw with
  | JBool _ | JNum _ | JStr _ | JArr _ => true
  | _ => false
  end.

(** An envelope of the [EventEnvelope] interface whose optional maps and
    payload are values JSON carries unchanged. *)
Record valid_envelope (e : EventEnvelope) : Prop := {
  valid_eventId : is_string (eventId e) = true;
  valid_eventType : is_string (eventType e) = true;
  valid_timestamp : is_string (timestamp e) = true;
  valid_source : is_string (source e) = true;
  valid_version : is_string (version e) = true;
  valid_correlationId : is_optional_string (correlationId e) = true;
  valid_causationId : is_optional_string (causationId e) = true;
  valid_traceContext : is_optional_object (traceContext e) = true;
  valid_metadata : is_optional_object (metadata e) = true;
  json_traceContext : json_image (traceContext e) = traceContext e;
  json_metadata : json_image (metadata e) = metadata e;
  json_data : json_image (data e) = data e;
}.

(** No id of the envelope is the empty string. *)
Record nonempty_ids (e : EventEnvelope) : Prop := {
  nonempty_eventId : truthy (eventId e) = true;
  nonempty_eventType : truthy (eventType e) = true;
  nonempty_correlationId :
    correlationId e = JUndefined \/ truthy (correlationId e) = true;
  nonempty_causationId :
    causationId e = JUndefined \/ truthy (causationId e) = true;
}.

(** The envelope with each id that is the empty string replaced by
    [undefined]: [id || undefined]. *)
Definition without_empty_ids (e : EventEnvelope) : EventEnvelope :=
  {| eventId := js_or (eventId e) JUndefined;
     eventType := js_or (eventType e) JUndefined;
     timestamp := timestamp e;
     source := source e;
     version := version e;
     correlationId := js_or (correlationId e) JUndefined;
     causationId := js_or (causationId e) JUndefined;
     traceContext := traceContext e;
     metadata := metadata e;
     data := data e |}.

(** ** The platform *)

Class Runtime : Type := {
  JSON_parse : string -> Completion JsValue;
  JSON_stringify : JsValue -> string;
  (** [inject(context, carrier)] of the [W3CTraceContextPropagator] that
      [initTracer] registers: the carrier after the call *)
  W3C_inject : Context -> gmap string string -> gmap string string;
  (** [extract(context, carrier)] of that propagator *)
  W3C_extract : Context -> JsValue -> Context;
  (** id generator of the tracer provider, by span number *)
  generateTraceId : nat -> string;
  generateSpanId : nat -> string;
  (** the n-th uuid drawn *)
  uuidv4 : nat -> string;
  (** [new Date(t).toISOString()] *)
  Date_toISOString : N -> string;
}.

(** The platform writes the object [o] as a text that is not empty and
    reads that text back as JSON carries [o]. *)
Definition carried_by_JSON {rt : Runtime} (o : JsValue) : Prop :=
  is_empty (JSON_stringify o) = false
  /\ JSON_parse (JSON_stringify o) = Normal (json_image o).

(** ** The broker (Redis Streams), as far as the library uses it *)

Record Broker : Type := {
  (** appended entries, oldest first: stream, id, field list *)
  entries : list (string * string * list string);
  (** consumer groups: stream, group *)
  groups : list (string * string);
  (** delivered and not acknowledged: stream, group, id *)
  pending : list (string * string * string);
  (** acknowledged: stream, group, id *)
  acked : list (string * string * string);
  (** when set, the connection is down and every command is rejected with
      an [Error] of this message *)
  fault : option string;
}.

Inductive Command : Type :=
  | XADD (stream : string) (fields : list string)
  | XGROUP_CREATE (stream group : string)
  | XREADGROUP (group consumer : string) (streams : list string)
  | XACK (stream group id : string)
  | QUIT.

(** ** Effects *)

Inductive Level : Type := LInfo | LError | LWarn | LDebug.

Inductive Event : Type :=
  | Log (lvl : Level) (msg : string) (meta : JsValue)
  | Cmd (c : Command)
  | SpanStart (sp : Span) (name : string) (kind : SpanKind)
      (attributes : JsValue) (parent : Context)
  | SpanSetAttribute (sp : Span) (key : string) (v : JsValue)
  | SpanRecordException (sp : Span) (e : JsValue)
  | SpanEnd (sp : Span)
  | Invoke (envelope : EventEnvelope)
  | Sleep (ms : N).

Record Tracer : Type := {
  tracer_name : string;
  tracer_version : string;
  tracer_endpoint : string;
}.

Record World : Type := {
  trace : list Event;
  broker : Broker;
  (** [context.active()] *)
  active : Context;
  (** the module variable [tracer] of tracing.ts *)
  tracer : option Tracer;
  (** whether a global propagator is registered: [initTracer] registers one,
      and so does an application that starts the SDK itself, as
      instrumentation.ts does *)
  propagator : bool;
  next_span : nat;
  (** [process.env] *)
  env : gmap string string;
  clock : N;
  (** number of uuids drawn so far *)
  drawn : nat;
}.

Definition set_trace (t : list Event) (w : World) : World :=
  {| trace := t; broker := broker w; active := active w; tracer := tracer w;
     propagator := propagator w; next_span := next_span w; env := env w;
     clock := clock w; drawn := drawn w |}.
Definition set_broker (b : Broker) (w : World) : World :=
  {| trace := trace w; broker := b; active := active w; tracer := tracer w;
     propagator := propagator w; next_span := next_span w; env := env w;
     clock := clock w; drawn := drawn w |}.
Definition set_active (c : Context) (w : World) : World :=
  {| trace := trace w; broker := broker w; active := c; tracer := tracer w;
     propagator := propagator w; next_span := next_span w; env := env w;
     clock := clock w; drawn := drawn w |}.
Definition set_tracer (t : option Tracer) (w : World) : World :=
  {| trace := trace w; broker := broker w; active := active w; tracer := t;
     propagator := propagator w; next_span := next_span w; env := env w;
     clock := clock w; drawn := drawn w |}.
Definition set_propagator (b : bool) (w : World) : World :=
  {| trace := trace w; broker := broker w; active := active w; tracer := tracer w;
     propagator := b; next_span := next_span w; env := env w; clock := clock w;
     drawn := drawn w |}.
Definition set_next_span (n : nat) (w : World) : World :=
  {| trace := trace w; broker := broker w; active := active w; tracer := tracer w;
     propagator := propagator w; next_span := n; env := env w; clock := clock w;
     drawn := drawn w |}.
Definition set_clock (n : N) (w : World) : World :=
  {| trace := trace w; broker := broker w; active := active w; tracer := tracer w;
     propagator := propagator w; next_span := next_span w; env := env w;
     clock := n; drawn := drawn w |}.
Definition set_drawn (n : nat) (w : World) : World :=
  {| trace := trace w; broker := broker w; active := active w; tracer := tracer w;
     propagator := propagator w; next_span := next_span w; env := env w;
     clock := clock w; drawn := n |}.

(** Computations of the library: a completion and the world after it. *)
Definition M (A : Type) : Type := World -> Completion A * World.

#[global] Instance M_ret : MRet M := fun A a w => (Normal a, w).
#[global] Instance M_bind : MBind M :=
  fun A B k m w =>
    match m w with
    | (Normal a, w') => k a w'
    | (Throw e, w') => (Throw e, w')
    end.

Definition lift {A} (c : Completion A) : M A := fun w => (c, w).
Definition throw {A} (e : JsValue) : M A := fun w => (Throw e, w).
Definition emit (e : Event) : M unit :=
  fun w => (Normal tt, set_trace (trace w ++ [e]) w).

(** [try { m } catch (error) { h error }] *)
Definition try_catch {A} (m : M A) (h : JsValue -> M A) : M A :=
  fun w =>
    match m w with
    | (Normal a, w') => (Normal a, w')
    | (Throw e, w') => h e w'
    end.

(** [try { m } finally { f }]: [f] runs on every exit of [m]; the completion
    of [m] stands unless [f] throws. *)
Definition try_finally {A} (m : M A) (f : M unit) : M A :=
  fun w =>
    let '(r, w1) := m w in
    match f w1 with
    | (Normal _, w2) => (r, w2)
    | (Throw e, w2) => (Throw e, w2)
    end.

(** The events a run appended. *)
Definition events_since (w w' : World) : list Event :=
  drop (length (trace w)) (trace w').

(** The events a computation appends when run in [w]. *)
Definition effects {A} (m : M A) (w : World) : list Event :=
  events_since w (m w).2.

(** [m] acknowledges the entry: it sends the [XACK], and a broker that
    can be reached no longer holds the entry as pending. *)
Definition acknowledges {A} (m : M A) (stream group id : string) (w : World) : Prop :=
  Cmd (XACK stream group id) ∈ effects m w
  /\ (fault (broker w) = None -> (stream, group, id) ∉ pending (broker (m w).2)).

(** [m] sends no [XACK] for the entry and leaves the broker as it is, so an
    entry that is pending stays pending. *)
Definition leaves_unacknowledged {A} (m : M A) (stream group id : string) (w : World)
  : Prop :=
  (Cmd (XACK stream group id) ∉ effects m w) /\ broker (m w).2 = broker w.

Definition invokes_no_handler {A} (m : M A) (w : World) : Prop :=
  forall envelope, Invoke envelope ∉ effects m w.

(** An [Error] object. *)
Definition is_Error (e : JsValue) : Prop :=
  exists name message, e = Error_ name message.

(** A completion that is normal or throws an [Error] object. *)
Definition throws_only_errors {A} (r : Completion A) : Prop :=
  match r with
  | Normal _ => True
  | Throw e => is_Error e
  end.

(** How often the span numbered [n] is ended in a list of events. *)
Fixpoint span_ends (n : nat) (evs : list Event) : nat :=
  match evs with
  | [] => 0
  | SpanEnd sp :: rest =>
      if (span_no sp =? n)%nat then S (span_ends n rest) else span_ends n rest
  | _ :: rest => span_ends n rest
  end.

(** ** The console logger of the publisher and the consumer *)

Module logger.

(** [console.log(`[LEVEL] ${msg}`, meta || '')] *)
Definition log (lvl : Level) (msg : string) (meta : JsValue) : M unit :=
  emit (Log lvl msg (js_or meta (JStr ""))).

Definition info := log LInfo.
Definition error := log LError.
Definition warn := log LWarn.
Definition debug := log LDebug.

End logger.

(** ** The ioredis client: each command is sent, then answered by the broker *)

Module client.

Definition BUSYGROUP : JsValue :=
  Error_ "ReplyError" "BUSYGROUP Consumer Group name already exists".

Definition NOGROUP : JsValue :=
  Error_ "ReplyError" "NOGROUP No such key or consumer group".

Definition set_entries (l : list (string * string * list string)) (b : Broker) : Broker :=
  {| entries := l; groups := groups b; pending := pending b; acked := acked b;
     fault := fault b |}.
Definition set_groups (l : list (string * string)) (b : Broker) : Broker :=
  {| entries := entries b; groups := l; pending := pending b; acked := acked b;
     fault := fault b |}.
Definition set_pending (l : list (string * string * string)) (b : Broker) : Broker :=
  {| entries := entries b; groups := groups b; pending := l; acked := acked b;
     fault := fault b |}.
Definition set_acked (l : list (string * string * string)) (b : Broker) : Broker :=
  {| entries := entries b; groups := groups b; pending := pending b; acked := l;
     fault := fault b |}.

(** A command reaches the broker unless the connection is at fault. *)
Definition command {A} (c : Command) (reply : Broker -> Completion A * Broker) : M A :=
  emit (Cmd c);;
  ((fun w =>
      match fault (broker w) with
      | Some message => (Throw (Error_ "Error" message), w)
      | None => let '(r, b) := reply (broker w) in (r, set_broker b w)
      end) : M A).

Definition has_group (stream group : string) (b : Broker) : bool :=
  bool_decide ((stream, group) ∈ groups b).

(** [XADD stream MAXLEN ~ 10000 * field value]: the entry gets the next id.
    The approximate trim is the broker's and is not modelled. *)
Definition xadd (stream field value : string) : M string :=
  command (XADD stream [field; value])
    (fun b =>
       let id := pretty (S (length (entries b))) +:+ "-0" in
       (Normal id, set_entries (entries b ++ [(stream, id, [field; value])]) b)).

(** [XGROUP CREATE stream group 0 MKSTREAM] *)
Definition xgroup_create (stream group : string) : M unit :=
  command (XGROUP_CREATE stream group)
    (fun b =>
       if has_group stream group b then (Throw BUSYGROUP, b)
       else (Normal tt, set_groups (groups b ++ [(stream, group)]) b)).

(** [XACK stream group id]: the number of entries acknowledged. *)
Definition xack (stream group id : string) : M Z :=
  command (XACK stream group id)
    (fun b =>
       if bool_decide ((stream, group, id) ∈ pending b) then
         (Normal 1%Z,
          set_acked (acked b ++ [(stream, group, id)])
            (set_pending (filter (fun p => p ≠ (stream, group, id)) (pending b)) b))
       else (Normal 0%Z, b)).

(** The entries of [stream] never delivered to [group], at most [count]. *)
Definition new_entries (count : nat) (stream group : string) (b : Broker)
  : list (string * list string) :=
  take count
    (omap (fun e : string * string * list string =>
             let '(s, id, fields) := e in
             if bool_decide (s = stream) &&
                negb (bool_decide ((s, group, id) ∈ pending b)) &&
                negb (bool_decide ((s, group, id) ∈ acked b))
             then Some (id, fields) else None)
          (entries b)).

(** [XREADGROUP GROUP group consumer COUNT 10 BLOCK 5000 STREAMS s.. >..]:
    [None] is the null reply of a read that timed out. *)
Definition xreadgroup (group consumer : string) (streams : list string)
  : M (option (list (string * list (string * list string)))) :=
  command (XREADGROUP group consumer streams)
    (fun b =>
       if forallb (fun s => has_group s group b) streams then
         let results :=
           omap (fun s => match new_entries 10 s group b with
                          | [] => None
                          | l => Some (s, l)
                          end) streams in
         let delivered :=
           flat_map (fun r : string * list (string * list string) =>
                       map (fun m => (r.1, group, m.1)) r.2) results in
         match results with
         | [] => (Normal None, b)
         | _ => (Normal (Some results), set_pending (pending b ++ delivered) b)
         end
       else (Throw NOGROUP, b)).

Definition quit : M unit := command QUIT (fun b => (Normal tt, b)).

End client.

(** ** tracing.ts *)

Module tracing.
Section tracing.
Context {rt : Runtime}.

Record TracerConfig : Type := {
  serviceName : option string;
  serviceVersion : option string;
  otlpEndpoint : option string;
}.

Definition no_config : TracerConfig :=
  {| serviceName := None; serviceVersion := None; otlpEndpoint := None |}.

(** [propagation.inject(context, carrier)] and
    [propagation.extract(context, carrier)] of the API, in the world [w]: the
    global propagator does the work, and until one is registered the carrier
    and the context are returned as they are. *)
Definition propagation_inject (w : World) (ctx : Context) (carrier : gmap string string)
  : gmap string string :=
  if propagator w then W3C_inject ctx carrier else carrier.

Definition propagation_extract (w : World) (ctx : Context) (carrier : JsValue) : Context :=
  if propagator w then W3C_extract ctx carrier else ctx.

(** [initTracer] registers the provider with the W3C propagator (lines
    103-108) unless the module already holds a tracer. *)
Definition initTracer (config : TracerConfig) : M Tracer :=
  fun w =>
    match tracer w with
    | Some t => (Normal t, w)
    | None =>
        let name :=
          or_str (serviceName config)
            (or_str (env w !! "OTEL_SERVICE_NAME") "unknown-service") in
        let ver :=
          or_str (serviceVersion config)
            (or_str (env w !! "SERVICE_VERSION") "1.0.0") in
        let endpoint :=
          or_str (otlpEndpoint config)
            (or_str (env w !! "OTEL_EXPORTER_OTLP_ENDPOINT") "http://localhost:4317") in
        let t := {| tracer_name := name; tracer_version := ver;
                    tracer_endpoint := endpoint |} in
        (Normal t, set_propagator true (set_tracer (Some t) w))
    end.

(** The tracer [initTracer] creates for the empty config. *)
Definition lazy_tracer (w : World) : Tracer :=
  {| tracer_name := or_str (env w !! "OTEL_SERVICE_NAME") "unknown-service";
     tracer_version := or_str (env w !! "SERVICE_VERSION") "1.0.0";
     tracer_endpoint :=
       or_str (env w !! "OTEL_EXPORTER_OTLP_ENDPOINT") "http://localhost:4317" |}.

Definition getTracer : M Tracer :=
  fun w =>
    match tracer w with
    | None => initTracer no_config w
    | Some t => (Normal t, w)
    end.

Definition context_active : M Context := fun w => (Normal (active w), w).

(** [context.with(ctx, fn)]: [ctx] is the active context while [fn] runs,
    the previous one afterwards, also when [fn] throws. *)
Definition context_with {A} (ctx : Context) (fn : M A) : M A :=
  fun w =>
    let '(r, w') := fn (set_active ctx w) in
    (r, set_active (active w) w').

(** [trace.setSpan(ctx, span)] *)
Definition trace_setSpan (ctx : Context) (span : Span) : Context :=
  Some (spanContext span).

Definition injectTraceContext (carrier : gmap string string) : M (gmap string string) :=
  fun w => (Normal (propagation_inject w (active w) carrier), w).

Definition extractTraceContext (carrier : JsValue) : M Context :=
  fun w => (Normal (propagation_extract w (active w) carrier), w).

Record SpanOptions : Type := {
  parentContext : option Context;
  kind : option SpanKind;
  attributes : option JsValue;
}.

Definition no_options : SpanOptions :=
  {| parentContext := None; kind := None; attributes := None |}.

(** [tracer.startSpan(name, { kind, attributes }, ctx)]: the span continues
    the trace of the span [ctx] carries, or starts a trace. *)
Definition startSpan (t : Tracer) (name : string) (k : SpanKind)
    (attrs : option JsValue) (ctx : Context) : M Span :=
  fun w =>
    let n := next_span w in
    let sc := {| traceId := match ctx with
                            | Some p => traceId p
                            | None => generateTraceId n
                            end;
                 spanId := generateSpanId n;
                 isRemote := false |} in
    let span := {| span_no := n; spanContext := sc |} in
    (Normal span,
     set_trace (trace w ++ [SpanStart span name k (default JUndefined attrs) ctx])
       (set_next_span (S n) w)).

Definition createSpan (name : string) (options : SpanOptions) : M Span :=
  t ← getTracer;
  ambient ← context_active;
  let ctx := default ambient (parentContext options) in
  startSpan t name (default INTERNAL (kind options)) (attributes options) ctx.

Definition span_setAttribute (span : Span) (key : string) (v : JsValue) : M unit :=
  emit (SpanSetAttribute span key v).
Definition span_recordException (span : Span) (e : JsValue) : M unit :=
  emit (SpanRecordException span e).
Definition span_end (span : Span) : M unit := emit (SpanEnd span).

Definition withSpan {T} (name : string) (fn : Span -> M T) (options : SpanOptions) : M T :=
  span ← createSpan name options;
  ambient ← context_active;
  let ctx := trace_setSpan (default ambient (parentContext options)) span in
  try_finally
    (try_catch (context_with ctx (fn span))
       (fun error => span_recordException span error;; throw error))
    (span_end span).

(** The span [createSpan] returns in [w] for the context [parent]. *)
Definition span_in (w : World) (parent : Context) : Span :=
  {| span_no := next_span w;
     spanContext :=
       {| traceId := match parent with
                     | Some p => traceId p
                     | None => generateTraceId (next_span w)
                     end;
          spanId := generateSpanId (next_span w);
          isRemote := false |} |}.

(** What [withSpan] appends once [fn] has completed with [r]: the recorded
    exception if [fn] threw, and the end of the span. *)
Definition closing {T} (span : Span) (r : Completion T) : list Event :=
  match r with
  | Normal _ => []
  | Throw e => [SpanRecordException span e]
  end ++ [SpanEnd span].

Definition getCurrentTraceContext : M (gmap string string) :=
  let carrier : gmap string string := ∅ in
  fun w => (Normal (propagation_inject w (active w) carrier), w).

End tracing.
End tracing.

(** ** events.ts *)

Module events.
Section events.
Context {rt : Runtime}.

Record Options : Type := {
  o_correlationId : option string;
  o_causationId : option string;
  o_traceContext : option (gmap string string);
  o_metadata : option (gmap string JsValue);
}.

(** [options?.field] *)
Definition opt {A} (options : option Options) (field : Options -> option A) : option A :=
  o ← options; field o.

Definition uuid : M string :=
  fun w => (Normal (uuidv4 (drawn w)), set_drawn (S (drawn w)) w).

Definition now_iso : M string :=
  fun w => (Normal (Date_toISOString (clock w)), w).

Definition createEventEnvelope (eventType source : string) (data : JsValue)
    (options : option Options) : M EventEnvelope :=
  id ← uuid;
  ts ← now_iso;
  mret {| eventId := JStr id;
          eventType := JStr eventType;
          timestamp := JStr ts;
          source := JStr source;
          version := JStr "1.0.0";
          correlationId := of_option (opt options o_correlationId);
          causationId := of_option (opt options o_causationId);
          traceContext :=
            match opt options o_traceContext with
            | Some c => JObj (JStr <$> c)
            | None => JUndefined
            end;
          metadata :=
            match opt options o_metadata with
            | Some m => JObj m
            | None => JUndefined
            end;
          data := data |}.

End events.
End events.

(** ** The plain streams client *)

Module RedisStreamsClient.
Section RedisStreamsClient.
Context {rt : Runtime}.

(** [publish(stream, envelope)]: the envelope goes into the field [payload]. *)
Definition publish (stream : string) (envelope : EventEnvelope) : M string :=
  let payload := JSON_stringify (envelope_object envelope) in
  messageId ← client.xadd stream "payload" payload;
  mret (or_str (Some messageId) "").

Definition close : M unit := client.quit.

End RedisStreamsClient.
End RedisStreamsClient.

(** ** The event publisher *)

Module EventPublisher.
Section EventPublisher.
Context {rt : Runtime}.

Record t : Type := {
  serviceName : string;
  streamPrefix : string;
}.

(** [new EventPublisher(redisUrl, serviceName, streamPrefix = 'events')] *)
Definition new (serviceName : string) (streamPrefix : option string) : t :=
  {| serviceName := serviceName; streamPrefix := default "events" streamPrefix |}.

Record PublishOptions : Type := {
  opt_correlationId : option string;
  opt_causationId : option string;
  opt_metadata : option (gmap string JsValue);
}.

Definition getStreamName (this : t) (eventType : string) : string :=
  let domain := index0 (String_split "." eventType) in
  streamPrefix this +:+ ":" +:+ domain +:+ "s".

(** [{ ...options, traceContext }] *)
Definition spread (options : option PublishOptions) (traceContext : gmap string string)
  : events.Options :=
  {| events.o_correlationId := o ← options; opt_correlationId o;
     events.o_causationId := o ← options; opt_causationId o;
     events.o_traceContext := Some traceContext;
     events.o_metadata := o ← options; opt_metadata o |}.

Definition publish (this : t) (eventType : string) (data : JsValue)
    (options : option PublishOptions) : M string :=
  traceContext ← tracing.getCurrentTraceContext;
  envelope ← events.createEventEnvelope eventType (serviceName this) data
                (Some (spread options traceContext));
  let stream := getStreamName this eventType in
  tracing.withSpan ("publish " +:+ eventType)
    (fun span =>
       tracing.span_setAttribute span "messaging.system" (JStr "redis_streams");;
       tracing.span_setAttribute span "messaging.destination" (JStr stream);;
       tracing.span_setAttribute span "messaging.operation" (JStr "publish");;
       tracing.span_setAttribute span "event.type" (JStr eventType);;
       tracing.span_setAttribute span "event.id" (eventId envelope);;
       messageId ← client.xadd stream "data" (JSON_stringify (envelope_object envelope));
       logger.info "Event published"
         (obj [("eventType", JStr eventType); ("eventId", eventId envelope);
               ("stream", JStr stream); ("messageId", JStr messageId)]);;
       mret (or_str (Some messageId) ""))
    {| tracing.parentContext := None; tracing.kind := Some PRODUCER;
       tracing.attributes := None |}.

Definition close (this : t) : M unit :=
  client.quit;;
  logger.info "Event publisher closed" (obj [("service", JStr (serviceName this))]).

(** The envelope [publish] builds when called in [w]: its trace context is
    the injection of the context active at the call. *)
Definition published_envelope (this : t) (eventType : string) (data : JsValue)
    (options : option PublishOptions) (w : World) : EventEnvelope :=
  {| eventId := JStr (uuidv4 (drawn w));
     eventType := JStr eventType;
     timestamp := JStr (Date_toISOString (clock w));
     source := JStr (serviceName this);
     version := JStr "1.0.0";
     correlationId := of_option (o ← options; opt_correlationId o);
     causationId := of_option (o ← options; opt_causationId o);
     traceContext := JObj (JStr <$> tracing.propagation_inject w (active w) ∅);
     metadata :=
       match o ← options; opt_metadata o with
       | Some m => JObj m
       | None => JUndefined
       end;
     data := data |}.

(** The id the broker gives the next entry. *)
Definition next_id (w : World) : string :=
  pretty (S (length (entries (broker w)))) +:+ "-0".

(** What a [publish] that reaches the broker appends. *)
Definition publish_events (this : t) (eventType : string) (envelope : EventEnvelope)
    (w : World) : list Event :=
  let span := tracing.span_in w (active w) in
  let stream := getStreamName this eventType in
  [SpanStart span ("publish " +:+ eventType) PRODUCER JUndefined (active w);
   SpanSetAttribute span "messaging.system" (JStr "redis_streams");
   SpanSetAttribute span "messaging.destination" (JStr stream);
   SpanSetAttribute span "messaging.operation" (JStr "publish");
   SpanSetAttribute span "event.type" (JStr eventType);
   SpanSetAttribute span "event.id" (eventId envelope);
   Cmd (XADD stream ["data"; JSON_stringify (envelope_object envelope)]);
   Log LInfo "Event published"
     (obj [("eventType", JStr eventType); ("eventId", eventId envelope);
           ("stream", JStr stream); ("messageId", JStr (next_id w))]);
   SpanEnd span].

(** What a [publish] appends when the broker rejects the [XADD] with
    [error]. *)
Definition failed_publish_events (this : t) (eventType : string)
    (envelope : EventEnvelope) (error : JsValue) (w : World) : list Event :=
  let span := tracing.span_in w (active w) in
  let stream := getStreamName this eventType in
  [SpanStart span ("publish " +:+ eventType) PRODUCER JUndefined (active w);
   SpanSetAttribute span "messaging.system" (JStr "redis_streams");
   SpanSetAttribute span "messaging.destination" (JStr stream);
   SpanSetAttribute span "messaging.operation" (JStr "publish");
   SpanSetAttribute span "event.type" (JStr eventType);
   SpanSetAttribute span "event.id" (eventId envelope);
   Cmd (XADD stream ["data"; JSON_stringify (envelope_object envelope)]);
   SpanRecordException span error;
   SpanEnd span].

End EventPublisher.
End EventPublisher.

(** ** The Redis Streams consumer *)

Module RedisStreamsConsumer.
Section RedisStreamsConsumer.
Context {rt : Runtime}.

(** A handler is an external collaborator, taken by how it completes: it
    returns or it throws a value. What a handler does besides, such as
    publishing an event or waiting, is outside this development; the
    properties below speak of what the consumer itself does around the
    call. *)
Definition EventHandler : Type := EventEnvelope -> Completion unit.

Record t : Type := {
  serviceName : string;
  consumerGroup : string;
  consumerName : string;
  handlers : gmap string EventHandler;
  running : bool;
  (** a [Set<string>]: no duplicates, in insertion order *)
  streams : list string;
}.

(** [new RedisStreamsConsumer(redisUrl, serviceName, consumerGroup)] in the
    process [pid]. *)
Definition new (serviceName consumerGroup : string) (pid : Z) : t :=
  {| serviceName := serviceName;
     consumerGroup := consumerGroup;
     consumerName := serviceName +:+ "-" +:+ pretty pid;
     handlers := ∅;
     running := false;
     streams := [] |}.

Definition set_handlers (h : gmap string EventHandler) (c : t) : t :=
  {| serviceName := serviceName c; consumerGroup := consumerGroup c;
     consumerName := consumerName c; handlers := h; running := running c;
     streams := streams c |}.
Definition set_running (b : bool) (c : t) : t :=
  {| serviceName := serviceName c; consumerGroup := consumerGroup c;
     consumerName := consumerName c; handlers := handlers c; running := b;
     streams := streams c |}.
Definition set_streams (l : list string) (c : t) : t :=
  {| serviceName := serviceName c; consumerGroup := consumerGroup c;
     consumerName := consumerName c; handlers := handlers c; running := running c;
     streams := l |}.

(** [Set.prototype.add] *)
Definition Set_add (x : string) (l : list string) : list string :=
  if bool_decide (x ∈ l) then l else l ++ [x].

(** [Map.prototype.get] on a map whose keys are strings. *)
Definition Map_get (m : gmap string EventHandler) (k : JsValue) : option EventHandler :=
  match k with
  | JStr s => m !! s
  | _ => None
  end.

Definition getStreamName (eventType : string) : string :=
  let domain := index0 (String_split "." eventType) in
  "events:" +:+ domain.

(** The loop of lines 311-315: [data[fields[i]] = fields[i + 1]] for even
    [i]; a last key without a value gets [undefined], and an assignment to
    [__proto__] of a string leaves the object as it is. *)
Fixpoint parse_fields (fields : list string) (data : gmap string JsValue)
  : gmap string JsValue :=
  match fields with
  | [] => data
  | [k] => if String.eqb k "__proto__" then data else <[k := JUndefined]> data
  | k :: v :: rest =>
      parse_fields rest
        (if String.eqb k "__proto__" then data else <[k := JStr v]> data)
  end.

(** The keys of the field list, which are its elements at even positions. *)
Fixpoint field_names (fields : list string) : list string :=
  match fields with
  | [] => []
  | [k] => [k]
  | k :: _ :: rest => k :: field_names rest
  end.

(** [data.data || data.payload] of line 318. *)
Definition envelopeData (fields : list string) : JsValue :=
  let data := parse_fields fields ∅ in
  js_or (default JUndefined (data !! "data")) (default JUndefined (data !! "payload")).

(** [raw.a || raw.b]: the second property is read only when the first is
    falsy. *)
Definition either (raw : JsValue) (a b : string) : Completion JsValue :=
  x ← get_prop raw a;
  if truthy x then mret x else get_prop raw b.

(** The object literal of lines 328-339. *)
Definition normalize (rawEnvelope : JsValue) : Completion EventEnvelope :=
  eventId ← either rawEnvelope "eventId" "event_id";
  eventType ← either rawEnvelope "eventType" "event_type";
  timestamp ← get_prop rawEnvelope "timestamp";
  source ← get_prop rawEnvelope "source";
  version ← get_prop rawEnvelope "version";
  correlationId ← either rawEnvelope "correlationId" "correlation_id";
  causationId ← either rawEnvelope "causationId" "causation_id";
  traceContext ← either rawEnvelope "traceContext" "trace_context";
  metadata ← get_prop rawEnvelope "metadata";
  data ← get_prop rawEnvelope "data";
  mret {| eventId := eventId; eventType := eventType; timestamp := timestamp;
          source := source; version := version; correlationId := correlationId;
          causationId := causationId; traceContext := traceContext;
          metadata := metadata; data := data |}.

(** [envelope.traceContext ? extractTraceContext(envelope.traceContext) : undefined] *)
Definition parent_of (envelope : EventEnvelope) : M (option Context) :=
  if truthy (traceContext envelope)
  then ctx ← tracing.extractTraceContext (traceContext envelope); mret (Some ctx)
  else mret None.

(** The context the consumer span is started in: the one extracted from the
    envelope, or the active one when the envelope has no trace context. *)
Definition consumer_parent (w : World) (envelope : EventEnvelope) : Context :=
  if truthy (traceContext envelope)
  then tracing.propagation_extract w (active w) (traceContext envelope)
  else active w.

(** The envelope of a parsed object in the words of the specification: a
    field that has two spellings takes the camelCase one, or the snake_case
    one when the camelCase one is missing or falsy; the other fields are
    copied. *)
Definition either_dialect (m : gmap string JsValue) : EventEnvelope :=
  let field k := default JUndefined (m !! k) in
  {| eventId := js_or (field "eventId") (field "event_id");
     eventType := js_or (field "eventType") (field "event_type");
     timestamp := field "timestamp";
     source := field "source";
     version := field "version";
     correlationId := js_or (field "correlationId") (field "correlation_id");
     causationId := js_or (field "causationId") (field "causation_id");
     traceContext := js_or (field "traceContext") (field "trace_context");
     metadata := field "metadata";
     data := field "data" |}.

(** Lines 325-339 as one step: parse the payload, then build the envelope.
    The payload is a string or [undefined], which [JSON.parse] converts to
    the text it reads. *)
Definition decode (fields : list string) : Completion EventEnvelope :=
  rawEnvelope ← JSON_parse (to_string (envelopeData fields));
  normalize rawEnvelope.

(** What opening the consumer span appends: the start of the span, under the
    name the template literal gives when the event type has a primitive
    value, and the five attributes of lines 350-354. *)
Definition consumer_span_events (span : Span) (parent : Context)
    (envelope : EventEnvelope) : list Event :=
  [SpanStart span ("consume " +:+ to_string (eventType envelope)) CONSUMER
     JUndefined parent;
   SpanSetAttribute span "messaging.system" (JStr "redis_streams");
   SpanSetAttribute span "messaging.operation" (JStr "receive");
   SpanSetAttribute span "event.type" (eventType envelope);
   SpanSetAttribute span "event.id" (eventId envelope);
   SpanSetAttribute span "event.source" (source envelope)].

(** The line the [catch] block of [processMessage] logs for [message]. *)
Definition failure_log (stream messageId : string) (message : JsValue) : Event :=
  Log LError "Failed to process message"
    (obj [("messageId", JStr messageId); ("stream", JStr stream);
          ("error", message)]).

(** What follows an [XACK] the broker does not answer. *)
Definition ack_failure (stream messageId : string) (w : World) : list Event :=
  match fault (broker w) with
  | Some message => [failure_log stream messageId (JStr message)]
  | None => []
  end.

Definition processMessage (this : t) (stream messageId : string) (fields : list string)
  : M unit :=
  try_catch
    (let envelopeData := envelopeData fields in
     if negb (truthy envelopeData) then
       logger.warn "Message missing data field"
         (obj [("messageId", JStr messageId); ("stream", JStr stream)]);;
       client.xack stream (consumerGroup this) messageId;;
       mret tt
     else
       rawEnvelope ← lift (JSON_parse (to_string envelopeData));
       envelope ← lift (normalize rawEnvelope);
       parentContext ← parent_of envelope;
       name ← lift (ToString (eventType envelope));
       tracing.withSpan ("consume " +:+ name)
         (fun span =>
            tracing.span_setAttribute span "messaging.system" (JStr "redis_streams");;
            tracing.span_setAttribute span "messaging.operation" (JStr "receive");;
            tracing.span_setAttribute span "event.type" (eventType envelope);;
            tracing.span_setAttribute span "event.id" (eventId envelope);;
            tracing.span_setAttribute span "event.source" (source envelope);;
            match Map_get (handlers this) (eventType envelope) with
            | Some handler =>
                emit (Invoke envelope);;
                lift (handler envelope);;
                logger.debug "Event processed"
                  (obj [("eventType", eventType envelope); ("eventId", eventId envelope)])
            | None => mret tt
            end)
         {| tracing.parentContext := parentContext; tracing.kind := Some CONSUMER;
            tracing.attributes := None |};;
       client.xack stream (consumerGroup this) messageId;;
       mret tt)
    (fun error =>
       message ← lift (get_prop error "message");
       logger.error "Failed to process message"
         (obj [("messageId", JStr messageId); ("stream", JStr stream);
               ("error", message)])).

(** [await new Promise(resolve => setTimeout(resolve, ms))] *)
Definition sleep (ms : N) : M unit :=
  emit (Sleep ms);;
  ((fun w => (Normal tt, set_clock (clock w + ms)%N w)) : M unit).

(** The two nested [for] loops over the reply of a read. *)
Fixpoint process_messages (this : t) (stream : string)
    (messages : list (string * list string)) : M unit :=
  match messages with
  | [] => mret tt
  | (messageId, fields) :: rest =>
      processMessage this stream messageId fields;;
      process_messages this stream rest
  end.

Fixpoint process_results (this : t)
    (results : list (string * list (string * list string))) : M unit :=
  match results with
  | [] => mret tt
  | (stream, messages) :: rest =>
      process_messages this stream messages;;
      process_results this rest
  end.

(** The [catch] block of the loop of [startConsuming], lines 302-305. *)
Definition consume_failed (error : JsValue) : M unit :=
  message ← lift (get_prop error "message");
  logger.error "Error consuming events" (obj [("error", message)]);;
  sleep 5000%N.

(** One turn of the [while] loop of [startConsuming]. *)
Definition poll (this : t) : M unit :=
  try_catch
    (results ← client.xreadgroup (consumerGroup this) (consumerName this) (streams this);
     match results with
     | Some rs => process_results this rs
     | None => mret tt
     end)
    consume_failed.

(** [startConsuming], cut after [turns] turns of its loop. The consumer
    object is the one the loop was started on: a [subscribe] or [stop] that
    interleaves with the loop is a new call with the object it leaves. *)
Fixpoint consume_loop (turns : nat) (this : t) : M unit :=
  match turns with
  | O => mret tt
  | S n => if running this then poll this;; consume_loop n this else mret tt
  end.

Definition startConsuming (turns : nat) (this : t) : M unit :=
  logger.info "Starting event consumption"
    (obj [("service", JStr (serviceName this));
          ("streams", JArr (JStr <$> streams this))]);;
  consume_loop turns this.

(** [subscribe] returns its completion, the consumer object as it leaves it
    and the world. The call of [startConsuming] is not awaited: what it does
    before its first read returns is part of this call, the turns of the loop
    are not, and its completion does not reach the caller. *)
Definition subscribe (this : t) (eventType : string) (handler : EventHandler)
  : World -> Completion unit * t * World :=
  fun w =>
    let this1 := set_handlers (<[eventType := handler]> (handlers this)) this in
    let stream := getStreamName eventType in
    let this2 := set_streams (Set_add stream (streams this1)) this1 in
    let '(r, w1) :=
      try_catch
        (client.xgroup_create stream (consumerGroup this2);;
         logger.info "Created consumer group"
           (obj [("stream", JStr stream); ("group", JStr (consumerGroup this2))]))
        (fun error =>
           message ← lift (get_prop error "message");
           busy ← lift (call_includes message "BUSYGROUP");
           if negb busy then
             message' ← lift (get_prop error "message");
             logger.error "Failed to create consumer group"
               (obj [("stream", JStr stream); ("error", message')])
           else mret tt) w in
    match r with
    | Throw e => (Throw e, this2, w1)
    | Normal _ =>
        if negb (running this2) then
          let this3 := set_running true this2 in
          let '(_, w2) := startConsuming 0 this3 w1 in
          (Normal tt, this3, w2)
        else (Normal tt, this2, w1)
    end.

Definition stop (this : t) : World -> Completion unit * t * World :=
  fun w =>
    let this1 := set_running false this in
    let '(r, w1) :=
      (client.quit;;
       logger.info "Event consumer stopped" (obj [("service", JStr (serviceName this1))])) w in
    (r, this1, w1).

(** The consumer object [subscribe] leaves. *)
Definition subscribed (this : t) (eventType : string) (handler : EventHandler) : t :=
  set_running true
    (set_streams (Set_add (getStreamName eventType) (streams this))
       (set_handlers (<[eventType := handler]> (handlers this)) this)).

(** What the creation of the group appends: the command, and a line of the
    log unless the broker answers that the group exists. *)
Definition creation_events (this : t) (stream : string) (b : Broker) : list Event :=
  Cmd (XGROUP_CREATE stream (consumerGroup this))
  :: match fault b with
     | Some message =>
         if String_includes "BUSYGROUP" message then []
         else [Log LError "Failed to create consumer group"
                 (obj [("stream", JStr stream); ("error", JStr message)])]
     | None =>
         if client.has_group stream (consumerGroup this) b then []
         else [Log LInfo "Created consumer group"
                 (obj [("stream", JStr stream); ("group", JStr (consumerGroup this))])]
     end.

(** What starting the loop appends, when the consumer is not running yet. *)
Definition start_events (this : t) (eventType : string) (handler : EventHandler)
  : list Event :=
  if running this then []
  else [Log LInfo "Starting event consumption"
          (obj [("service", JStr (serviceName this));
                ("streams", JArr (JStr <$> streams (subscribed this eventType handler)))])].

(** The groups after the creation: one more if the broker is reached and
    does not have the group. *)
Definition groups_after (this : t) (stream : string) (b : Broker)
  : list (string * string) :=
  match fault b with
  | Some _ => groups b
  | None =>
      if client.has_group stream (consumerGroup this) b then groups b
      else groups b ++ [(stream, consumerGroup this)]
  end.

(** What a turn of the loop appends when the broker cannot be reached. *)
Definition failed_turn (this : t) (message : string) : list Event :=
  [Cmd (XREADGROUP (consumerGroup this) (consumerName this) (streams this));
   Log LError "Error consuming events" (obj [("error", JStr message)]);
   Sleep 5000%N].

End RedisStreamsConsumer.
End RedisStreamsConsumer.

(** ** A reference platform

    An executable instance of [Runtime], used to run the library on concrete
    inputs: a JSON reader and writer for the values above (ASCII text, integer
    numbers), the W3C trace-context propagator, and deterministic id, uuid and
    clock functions. *)

Module reference.

Definition is_ws (c : ascii) : bool :=
  match c with
  | " "%char | "009"%char | "010"%char | "013"%char => true
  | _ => false
  end.

Fixpoint skip_ws (s : string) : string :=
  match s with
  | String c r => if is_ws c then skip_ws r else s
  | EmptyString => s
  end.

Definition digit_of (c : ascii) : option Z :=
  let n := nat_of_ascii c in
  if (48 <=? n)%nat && (n <=? 57)%nat then Some (Z.of_nat (n - 48)) else None.

Definition hex_of (c : ascii) : option nat :=
  let n := nat_of_ascii c in
  if (48 <=? n)%nat && (n <=? 57)%nat then Some (n - 48)
  else if (97 <=? n)%nat && (n <=? 102)%nat then Some (n - 87)
  else if (65 <=? n)%nat && (n <=? 70)%nat then Some (n - 55)
  else None.

Definition hex_digit (n : nat) : ascii :=
  ascii_of_nat (if (n <? 10)%nat then 48 + n else 87 + n).

(** The [width] low hexadecimal digits of [n], most significant first. *)
Fixpoint pad_hex (width n : nat) : string :=
  match width with
  | O => ""
  | S w => pad_hex w (n / 16) +:+ String (hex_digit (n mod 16)) ""
  end.

(** Expects [lit] at the head of [s]. *)
Definition literal (lit : string) (v : JsValue) (s : string) : option (JsValue * string) :=
  if String.prefix lit s
  then Some (v, String.substring (String.length lit) (String.length s - String.length lit) s)
  else None.

(** The characters of a string literal after its opening quote. *)
Fixpoint read_string (s : string) : option (string * string) :=
  match s with
  | EmptyString => None
  | String "034"%char r => Some ("", r)
  | String "092"%char (String e r) =>
      let plain (c : ascii) :=
        match read_string r with
        | Some (t, r') => Some (String c t, r')
        | None => None
        end in
      match e with
      | "034"%char => plain "034"%char
      | "092"%char => plain "092"%char
      | "/"%char => plain "/"%char
      | "b"%char => plain "008"%char
      | "f"%char => plain "012"%char
      | "n"%char => plain "010"%char
      | "r"%char => plain "013"%char
      | "t"%char => plain "009"%char
      | "u"%char =>
          match r with
          | String a (String b (String c (String d r')) as r0) =>
              match hex_of a, hex_of b, hex_of c, hex_of d with
              | Some 0, Some 0, Some h, Some l =>
                  if (h <? 8)%nat then
                    match read_string r' with
                    | Some (t, r'') => Some (String (ascii_of_nat (16 * h + l)) t, r'')
                    | None => None
                    end
                  else None
              | _, _, _, _ => None
              end
          | _ => None
          end
      | _ => None
      end
  | String c r =>
      if (nat_of_ascii c <? 32)%nat then None
      else match read_string r with
           | Some (t, r') => Some (String c t, r')
           | None => None
           end
  end.

Fixpoint read_digits (s : string) (acc : Z) : Z * string :=
  match s with
  | String c r =>
      match digit_of c with
      | Some d => read_digits r (10 * acc + d)%Z
      | None => (acc, s)
      end
  | EmptyString => (acc, s)
  end.

(** An integer literal: no leading zero, no fraction, no exponent. *)
Definition read_number (s : string) : option (Z * string) :=
  let unsigned (s : string) :=
    match s with
    | String "0"%char r =>
        match r with
        | String c _ =>
            if bool_decide (is_Some (digit_of c)) || Ascii.eqb c "."
               || Ascii.eqb c "e" || Ascii.eqb c "E"
            then None else Some (0%Z, r)
        | EmptyString => Some (0%Z, r)
        end
    | String c r =>
        match digit_of c with
        | Some d =>
            let '(n, r') := read_digits r d in
            match r' with
            | String c' _ =>
                if Ascii.eqb c' "." || Ascii.eqb c' "e" || Ascii.eqb c' "E"
                then None else Some (n, r')
            | EmptyString => Some (n, r')
            end
        | None => None
        end
    | EmptyString => None
    end in
  match s with
  | String "-"%char r =>
      match unsigned r with
      | Some (n, r') => Some ((- n)%Z, r')
      | None => None
      end
  | _ => unsigned s
  end.

Fixpoint read_value (fuel : nat) (s : string) : option (JsValue * string) :=
  match fuel with
  | O => None
  | S fuel =>
      match skip_ws s with
      | EmptyString => None
      | String "n"%char _ as s' => literal "null" JNull s'
      | String "t"%char _ as s' => literal "true" (JBool true) s'
      | String "f"%char _ as s' => literal "false" (JBool false) s'
      | String "034"%char r =>
          match read_string r with
          | Some (t, r') => Some (JStr t, r')
          | None => None
          end
      | String "["%char r =>
          match skip_ws r with
          | String "]"%char r' => Some (JArr [], r')
          | r1 =>
              (fix elements (n : nat) (s : string) (acc : list JsValue) {struct n} :=
                 match n with
                 | O => None
                 | S n' =>
                     match read_value fuel s with
                     | Some (v, r2) =>
                         match skip_ws r2 with
                         | String ","%char r3 => elements n' r3 (acc ++ [v])%list
                         | String "]"%char r3 => Some (JArr (acc ++ [v])%list, r3)
                         | _ => None
                         end
                     | None => None
                     end
                 end) fuel r1 []
          end
      | String "{"%char r =>
          match skip_ws r with
          | String "}"%char r' => Some (JObj ∅, r')
          | r1 =>
              (fix members (n : nat) (s : string) (acc : gmap string JsValue) {struct n} :=
                 match n with
                 | O => None
                 | S n' =>
                     match skip_ws s with
                     | String "034"%char r2 =>
                         match read_string r2 with
                         | Some (k, r3) =>
                             match skip_ws r3 with
                             | String ":"%char r4 =>
                                 match read_value fuel r4 with
                                 | Some (v, r5) =>
                                     match skip_ws r5 with
                                     | String ","%char r6 => members n' r6 (<[k := v]> acc)
                                     | String "}"%char r6 => Some (JObj (<[k := v]> acc), r6)
                                     | _ => None
                                     end
                                 | None => None
                                 end
                             | _ => None
                             end
                         | None => None
                         end
                     | _ => None
                     end
                 end) fuel r1 ∅
          end
      | s' =>
          match read_number s' with
          | Some (n, r) => Some (JNum n, r)
          | None => None
          end
      end
  end.

Definition parse (text : string) : Completion JsValue :=
  match read_value (S (String.length text)) text with
  | Some (v, rest) =>
      match skip_ws rest with
      | EmptyString => Normal v
      | _ => Throw (SyntaxError "Unexpected non-whitespace character after JSON")
      end
  | None => Throw (SyntaxError "Unexpected token in JSON")
  end.

(** A backslash followed by [c]. *)
Definition escape (c : ascii) : string := String "092" (String c "").

Fixpoint quote_chars (s : string) : string :=
  match s with
  | EmptyString => ""
  | String c r =>
      let n := nat_of_ascii c in
      (if (n =? 34)%nat then escape "034"
       else if (n =? 92)%nat then escape "092"
       else if (n =? 8)%nat then escape "b"
       else if (n =? 12)%nat then escape "f"
       else if (n =? 10)%nat then escape "n"
       else if (n =? 13)%nat then escape "r"
       else if (n =? 9)%nat then escape "t"
       else if (n <? 32)%nat then escape "u" +:+ pad_hex 4 n
       else String c "") +:+ quote_chars r
  end.

Definition quote (s : string) : string :=
  String "034" (quote_chars s +:+ String "034" "").

(** [JSON.stringify]: a property holding [undefined] is left out, an array
    element holding [undefined] is written [null]. Properties are written in
    the order of the map, which a reader does not observe. *)
Fixpoint stringify (v : JsValue) : string :=
  match v with
  | JUndefined => "undefined"
  | JNull => "null"
  | JBool true => "true"
  | JBool false => "false"
  | JNum n => pretty n
  | JStr s => quote s
  | JArr l =>
      "[" +:+ str_join "," (map (fun x => match x with
                                          | JUndefined => "null"
                                          | _ => stringify x
                                          end) l) +:+ "]"
  | JObj m =>
      let written : gmap string string :=
        omap (fun x => match x with
                       | JUndefined => None
                       | _ => Some (stringify x)
                       end) m in
      "{" +:+ str_join "," (map (fun kv : string * string => quote kv.1 +:+ ":" +:+ kv.2)
                              (map_to_list written)) +:+ "}"
  end.

Definition all_hex (s : string) : bool :=
  forallb (fun c => bool_decide (is_Some (hex_of c))) (list_ascii_of_string s).

Definition all_zero (s : string) : bool :=
  forallb (fun c => Ascii.eqb c "0") (list_ascii_of_string s).

Definition valid_id (width : nat) (s : string) : bool :=
  (String.length s =? width)%nat && all_hex s && negb (all_zero s).

Definition isSpanContextValid (sc : SpanContext) : bool :=
  valid_id 32 (traceId sc) && valid_id 16 (spanId sc).

(** The [traceparent] value of a span context. The span contexts of this
    development carry no trace flags: a span is taken as sampled, which is
    what the default sampler of the SDK decides, so the flags are written
    [01]. *)
Definition traceparent_of (sc : SpanContext) : string :=
  "00-" +:+ traceId sc +:+ "-" +:+ spanId sc +:+ "-01".

(** [W3CTraceContextPropagator.inject]: nothing is written when the context
    carries no valid span context. *)
Definition inject (ctx : Context) (carrier : gmap string string) : gmap string string :=
  match ctx with
  | Some sc =>
      if isSpanContextValid sc
      then <["traceparent" := traceparent_of sc]> carrier
      else carrier
  | None => carrier
  end.

(** [[\da-f]*]: digits and lower-case letters only. *)
Definition lower_hex (s : string) : bool :=
  forallb (fun c => let n := nat_of_ascii c in
                    ((48 <=? n)%nat && (n <=? 57)%nat)
                    || ((97 <=? n)%nat && (n <=? 102)%nat))
          (list_ascii_of_string s).

(** [\s] on ASCII text, and the line terminators [.] does not match. *)
Definition is_space (c : ascii) : bool :=
  let n := nat_of_ascii c in
  (n =? 32)%nat || ((9 <=? n)%nat && (n <=? 13)%nat).

Definition is_line_end (c : ascii) : bool :=
  let n := nat_of_ascii c in (n =? 10)%nat || (n =? 13)%nat.

(** Drops the one white-space character the pattern allows at each end. *)
Definition drop_last_space (s : string) : string :=
  match rev (list_ascii_of_string s) with
  | c :: r => if is_space c then string_of_list_ascii (rev r) else s
  | [] => s
  end.

Definition drop_spaces (s : string) : string :=
  drop_last_space match s with
                  | String c r => if is_space c then r else s
                  | EmptyString => s
                  end.

(** [parseTraceParent]: the header matches the pattern of the propagator
    (a version other than [ff], a trace id and a span id that are not all
    zeros, two digits of flags, all in lower-case hexadecimal), and only a
    version other than [00] may be followed by more. The flags are read and,
    with span contexts that carry none, dropped. *)
Definition parseTraceParent (traceparent : string) : option SpanContext :=
  match String_split "-" (drop_spaces traceparent) with
  | ver :: tid :: sid :: flags :: more =>
      if (String.length ver =? 2)%nat && lower_hex ver && negb (String.eqb ver "ff")
         && (String.length tid =? 32)%nat && lower_hex tid && negb (all_zero tid)
         && (String.length sid =? 16)%nat && lower_hex sid && negb (all_zero sid)
         && (String.length flags =? 2)%nat && lower_hex flags
         && match more with
            | [] => true
            | _ =>
                negb (String.eqb ver "00")
                && forallb (fun part =>
                              forallb (fun c => negb (is_line_end c))
                                      (list_ascii_of_string part)) more
            end
      then Some {| traceId := tid; spanId := sid; isRemote := true |}
      else None
  | _ => None
  end.

(** [W3CTraceContextPropagator.extract]: the context is returned as it is
    when the carrier has no well-formed [traceparent]; of an array the
    first element is read. *)
Definition extract (ctx : Context) (carrier : JsValue) : Context :=
  match carrier with
  | JObj m =>
      match m !! "traceparent" with
      | Some (JStr tp) | Some (JArr (JStr tp :: _)) =>
          match parseTraceParent tp with
          | Some sc => Some sc
          | None => ctx
          end
      | _ => ctx
      end
  | _ => ctx
  end.

Definition two (n : N) : string :=
  String (hex_digit (N.to_nat (n / 10 mod 10)))
    (String (hex_digit (N.to_nat (n mod 10))) "").

(** The clock counts milliseconds from the start of 1 January 1970 and the
    reference platform stays within that day. *)
Definition toISOString (t : N) : string :=
  ("1970-01-01T" +:+ two (t / 3600000 mod 24) +:+ ":" +:+ two (t / 60000 mod 60)
   +:+ ":" +:+ two (t / 1000 mod 60) +:+ "."
   +:+ String (hex_digit (N.to_nat (t / 100 mod 10))) (two (t mod 100)) +:+ "Z")%N.

#[local] Instance runtime : Runtime := {|
  JSON_parse := parse;
  JSON_stringify := stringify;
  W3C_inject := inject;
  W3C_extract := extract;
  generateTraceId := fun n => pad_hex 32 (S n);
  generateSpanId := fun n => pad_hex 16 (S n);
  uuidv4 := fun n => "00000000-0000-4000-8000-" +:+ pad_hex 12 (S n);
  Date_toISOString := toISOString;
|}.

Definition broker0 : Broker :=
  {| entries := []; groups := []; pending := []; acked := []; fault := None |}.

(** A world in which nothing has happened yet. *)
Definition world0 : World :=
  {| trace := []; broker := broker0; active := None; tracer := None;
     propagator := false; next_span := 0; env := ∅; clock := 0%N; drawn := 0 |}.

(** JSON text written with apostrophes for its double quotes. *)
Fixpoint json (s : string) : string :=
  match s with
  | EmptyString => ""
  | String c r => String (if Ascii.eqb c "'" then "034"%char else c) (json r)
  end.

(** The events the examples use. *)
Definition registered_payload : string :=
  json "{'event_id':'abc','event_type':'user.registered','source':'auth','data':{'userId':'u1'}}".

Definition registered_envelope : EventEnvelope :=
  {| eventId := JStr "abc"; eventType := JStr "user.registered";
     timestamp := JUndefined; source := JStr "auth"; version := JUndefined;
     correlationId := JUndefined; causationId := JUndefined;
     traceContext := JUndefined; metadata := JUndefined;
     data := obj [("userId", JStr "u1")] |}.

Definition created_payload : string :=
  json "{'eventId':'e7','eventType':'order.created','source':'orders','data':{'orderId':'o1'}}".

Definition created_envelope : EventEnvelope :=
  {| eventId := JStr "e7"; eventType := JStr "order.created";
     timestamp := JUndefined; source := JStr "orders"; version := JUndefined;
     correlationId := JUndefined; causationId := JUndefined;
     traceContext := JUndefined; metadata := JUndefined;
     data := obj [("orderId", JStr "o1")] |}.

(** A consumer with one handler that completes and one that throws. *)
Definition consumer0 : RedisStreamsConsumer.t :=
  RedisStreamsConsumer.set_handlers
    (<["user.registered" := fun _ => Normal tt]>
       (<["order.created" := fun _ => Throw (Error_ "Error" "out of stock")]> ∅))
    (RedisStreamsConsumer.new "product-service" "product-group" 4242).

(** A world in which the group has been handed the entry [1-0] of the
    stream [events:user] and [2-0] of [events:order]. *)
Definition world1 : World :=
  set_broker
    {| entries := []; groups := [("events:user", "product-group");
                                 ("events:order", "product-group")];
       pending := [("events:user", "product-group", "1-0");
                   ("events:order", "product-group", "2-0")];
       acked := []; fault := None |}
    world0.

(** No character of [s] is [sep]. *)
Definition free_of (sep : ascii) (s : string) : bool :=
  forallb (fun c => negb (Ascii.eqb c sep)) (list_ascii_of_string s).

(** A world whose broker cannot be reached. *)
Definition world_down : World :=
  set_broker
    {| entries := []; groups := []; pending := []; acked := [];
       fault := Some "Connection is closed." |}
    world0.

Definition publisher0 : EventPublisher.t := EventPublisher.new "orders" None.

Definition order : JsValue := obj [("orderId", JStr "o1")].

(** A context with the span of the unit tests of the tracing module. *)
Definition request_span : SpanContext :=
  {| traceId := "4bf92f3577b34da6a3ce929d0e0e4736";
     spanId := "00f067aa0ba902b7";
     isRemote := false |}.

(** A world inside a request of the instrumented service: the SDK has
    registered the propagator and the span of the request is active. *)
Definition world_in_request : World :=
  set_propagator true (set_active (Some request_span) world0).

(** An envelope published with an empty correlation id. *)
Definition uncorrelated : EventEnvelope :=
  EventPublisher.published_envelope publisher0 "order.created" order
    (Some {| EventPublisher.opt_correlationId := Some "";
             EventPublisher.opt_causationId := None;
             EventPublisher.opt_metadata := None |})
    world_in_request.

(** An envelope published with a correlation id and metadata. *)
Definition correlated : EventEnvelope :=
  EventPublisher.published_envelope publisher0 "order.created" order
    (Some {| EventPublisher.opt_correlationId := Some "c-42";
             EventPublisher.opt_causationId := None;
             EventPublisher.opt_metadata := Some {["tenant" := JStr "eu"]} |})
    world_in_request.

(** A world of the instrumented service outside any request: the propagator
    is registered and no span is active. *)
Definition world_idle : World := set_propagator true world0.

(** The world of the consumer once its tracer is initialised. *)
Definition world_traced : World := (tracing.initTracer tracing.no_config world1).2.

(** An envelope published inside the request, without options. *)
Definition stamped : EventEnvelope :=
  EventPublisher.published_envelope publisher0 "order.created" order None
    world_in_request.

(** The consumer of the examples while its loop runs. *)
Definition running_consumer : RedisStreamsConsumer.t :=
  RedisStreamsConsumer.set_running true consumer0.

(** A consumer whose handler rejects without a reason. *)
Definition rejecting_consumer : RedisStreamsConsumer.t :=
  RedisStreamsConsumer.set_handlers
    {["order.created" := fun _ => Throw JUndefined]}
    (RedisStreamsConsumer.new "product-service" "product-group" 4242).

(** The options of the envelope [correlated]. *)
Definition correlated_options : EventPublisher.PublishOptions :=
  {| EventPublisher.opt_correlationId := Some "c-42";
     EventPublisher.opt_causationId := None;
     EventPublisher.opt_metadata := Some {["tenant" := JStr "eu"]} |}.

(** A consumer subscribed to [order.created] with a handler that completes. *)
Definition order_consumer : RedisStreamsConsumer.t :=
  RedisStreamsConsumer.subscribed
    (RedisStreamsConsumer.new "product-service" "product-group" 4242)
    "order.created" (fun _ => Normal tt).

(** A world in which the group of that consumer exists and no entry has been
    appended. *)
Definition world_subscribed : World :=
  set_broker
    {| entries := []; groups := [("events:order", "product-group")];
       pending := []; acked := []; fault := None |}
    world0.

(** A world in which one entry waits on the stream [events:order]. *)
Definition world_waiting : World :=
  set_broker
    {| entries := [("events:order", "1-0", ["data"; created_payload])];
       groups := [("events:order", "product-group")];
       pending := []; acked := []; fault := None |}
    world0.

End reference.

(** * Properties *)

(** ** Traces and lists *)

Lemma events_since_app (w w' : World) (evs : list Event) :
  trace w' = trace w ++ evs -> events_since w w' = evs.
Proof. intros E. unfold events_since. rewrite E. apply drop_app_length. Qed.

Lemma list_pair_ind {A} (P : list A -> Prop) :
  P [] -> (forall a, P [a]) -> (forall a b l, P l -> P (a :: b :: l)) ->
  forall l, P l.
Proof.
  intros Hnil Hone Hstep l.
  assert (H : P l /\ forall a, P (a :: l)).
  { induction l as [|b l [IH1 IH2]]; split; auto. }
  apply H.
Qed.

Lemma parse_fields_absent (fields : list string) (k : string) :
  k ∉ RedisStreamsConsumer.field_names fields ->
  forall acc : gmap string JsValue,
    RedisStreamsConsumer.parse_fields fields acc !! k = acc !! k.
Proof.
  induction fields as [|a|a b rest IH] using list_pair_ind; intros Hk acc.
  - reflexivity.
  - simpl in *. apply not_elem_of_cons in Hk as [Hne _].
    destruct (String.eqb a "__proto__"); [reflexivity|].
    by rewrite lookup_insert_ne.
  - simpl in Hk. apply not_elem_of_cons in Hk as [Hne Hrest].
    simpl. rewrite (IH Hrest).
    destruct (String.eqb a "__proto__"); [reflexivity|].
    by rewrite lookup_insert_ne.
Qed.

Lemma envelopeData_absent (fields : list string) :
  "data" ∉ RedisStreamsConsumer.field_names fields ->
  "payload" ∉ RedisStreamsConsumer.field_names fields ->
  RedisStreamsConsumer.envelopeData fields = JUndefined.
Proof.
  intros Hd Hp. unfold RedisStreamsConsumer.envelopeData.
  rewrite !parse_fields_absent by assumption. reflexivity.
Qed.

Lemma xack_clears (stream group id : string) (l : list (string * string * string)) :
  (stream, group, id) ∉ filter (fun p => p ≠ (stream, group, id)) l.
Proof. intros [H _]%list_elem_of_filter. by apply H. Qed.

(** ** Running the library

    [world w] names the components of a world; [run] unfolds the library
    down to its effects on those components. *)

Ltac world w :=
  destruct w as [tr [ents grps pend ackd flt] act tcr prp nsp en clk drw].

Ltac run :=
  cbv beta iota zeta delta
    [mbind mret M_bind M_ret Completion_bind Completion_ret lift throw emit
     try_catch try_finally effects fst snd
     logger.log logger.info logger.warn logger.error logger.debug
     client.command client.xack client.xadd client.xgroup_create client.quit
     client.set_entries client.set_groups client.set_pending client.set_acked
     client.has_group
     set_trace set_broker set_active set_tracer set_propagator set_next_span
     set_clock set_drawn
     trace broker active tracer propagator next_span env clock drawn
     entries groups pending acked fault
     js_or truthy obj negb default id Error_ TypeError get_prop call_includes
     tracing.withSpan tracing.createSpan tracing.getTracer tracing.initTracer
     tracing.context_active tracing.context_with tracing.trace_setSpan
     tracing.startSpan tracing.span_setAttribute tracing.span_recordException
     tracing.span_end tracing.extractTraceContext tracing.getCurrentTraceContext
     tracing.propagation_inject tracing.propagation_extract
     tracing.parentContext tracing.kind tracing.attributes
     tracing.no_config tracing.span_in
     RedisStreamsConsumer.parent_of RedisStreamsConsumer.processMessage
     RedisStreamsConsumer.consumer_parent RedisStreamsConsumer.consume_failed
     RedisStreamsConsumer.sleep].

(** Closes [events_since w w' = evs] once both worlds are explicit. *)
Ltac appended :=
  unfold events_since; cbv [trace]; rewrite <- ?app_assoc;
  first [apply drop_app_length | apply drop_all].

Ltac is_in :=
  apply list_elem_of_In; simpl; repeat first [left; reflexivity | right].

Ltac not_in :=
  rewrite ?elem_of_app, ?elem_of_cons, ?elem_of_nil; intuition discriminate.

Section tracing_properties.
Context {rt : Runtime}.
Import tracing.

Lemma createSpan_run (name : string) (options : SpanOptions) (w : World) :
  (createSpan name options w).1
  = Normal (span_in w (default (active w) (parentContext options))).
Proof. world w. destruct tcr, options as [[p|] k a]; reflexivity. Qed.

Lemma span_ends_app (n : nat) (l k : list Event) :
  span_ends n (l ++ k) = span_ends n l + span_ends n k.
Proof.
  induction l as [|e l IH]; [reflexivity|].
  destruct e; simpl; try exact IH.
  destruct (span_no sp =? n)%nat; simpl; by rewrite IH.
Qed.

Lemma span_ends_closing {T} (span : Span) (r : Completion T) :
  span_ends (span_no span) (closing span r) = 1.
Proof.
  destruct r; unfold closing; simpl; by rewrite Nat.eqb_refl.
Qed.

(** C7. Whatever [fn] does, [withSpan] completes as [fn] does (with its
    value, or by throwing the value [fn] threw), and what it appends after
    [fn] is the recorded exception, if [fn] threw, followed by the end of
    the span it opened: one [SpanEnd], on either path, so the span is ended
    once more in the trace of the call than [fn] left it. The context that
    was active before the call is active after it. *)
Theorem withSpan_ends_span_once {T} (name : string) (fn : Span -> M T)
    (options : SpanOptions) (w : World) :
  let span := span_in w (default (active w) (parentContext options)) in
  let w1 := (createSpan name options w).2 in
  let '(r, w2) := context_with (trace_setSpan (default (active w1) (parentContext options)) span)
                    (fn span) w1 in
  withSpan name fn options w = (r, set_trace (trace w2 ++ closing span r) w2)
  /\ span_ends (span_no span) (closing span r) = 1
  /\ span_ends (span_no span) (trace (withSpan name fn options w).2)
     = S (span_ends (span_no span) (trace w2))
  /\ active (withSpan name fn options w).2 = active w.
Proof.
  intros span w1.
  destruct (context_with _ (fn span) w1) as [r w2] eqn:F.
  assert (E : withSpan name fn options w
              = (r, set_trace (trace w2 ++ closing span r) w2));
    [|split; [exact E|split; [apply span_ends_closing|split]]].
  - unfold withSpan. cbv beta delta [mbind M_bind].
    pose proof (createSpan_run name options w) as C. fold span in C.
    destruct (createSpan name options w) as [c w1'] eqn:Cw.
    simpl in C. subst c w1. cbn [snd] in F.
    cbv beta iota delta [context_active try_finally try_catch].
    rewrite F.
    destruct r as [v|e], w2;
      unfold closing, span_recordException, span_end, throw, emit, set_trace;
      cbn; rewrite <- ?app_assoc; reflexivity.
  - rewrite E. destruct w2. cbn [snd set_trace trace].
    rewrite span_ends_app, span_ends_closing. lia.
  - unfold withSpan. cbv beta delta [mbind M_bind].
    pose proof (createSpan_run name options w) as C. fold span in C.
    destruct (createSpan name options w) as [c w1'] eqn:Cw.
    simpl in C. subst c w1. cbn [snd] in F.
    cbv beta iota delta [context_active try_finally try_catch].
    rewrite F.
    assert (A : active w1' = active w).
    { clear -Cw. world w. destruct tcr, options as [[p|] k a];
        inversion Cw; reflexivity. }
    assert (B : active w2 = active w1').
    { clear -F. unfold context_with in F.
      destruct (fn span _) as [r' w']. by inversion F. }
    rewrite <- A, <- B. clear.
    destruct r as [v|e], w2; reflexivity.
Qed.

End tracing_properties.

Section consumer_properties.
Context {rt : Runtime}.
Import RedisStreamsConsumer.

(** *** A message without envelope data *)

Lemma processMessage_no_envelope (this : t) (stream id : string)
    (fields : list string) (w : World) :
  truthy (envelopeData fields) = false ->
  processMessage this stream id fields w
  = try_catch
      (logger.warn "Message missing data field"
         (obj [("messageId", JStr id); ("stream", JStr stream)]);;
       client.xack stream (consumerGroup this) id;;
       mret tt)
      (fun error =>
         message ← lift (get_prop error "message");
         logger.error "Failed to process message"
           (obj [("messageId", JStr id); ("stream", JStr stream);
                 ("error", message)])) w.
Proof.
  intros H. cbv beta zeta delta [processMessage]. unfold try_catch.
  rewrite H. reflexivity.
Qed.

Lemma no_envelope_effects (this : t) (stream id : string)
    (fields : list string) (w : World) :
  truthy (envelopeData fields) = false ->
  (processMessage this stream id fields w).1 = Normal tt
  /\ effects (processMessage this stream id fields) w
     = [Log LWarn "Message missing data field"
          (obj [("messageId", JStr id); ("stream", JStr stream)]);
        Cmd (XACK stream (consumerGroup this) id)]
       ++ match fault (broker w) with
          | Some message =>
              [Log LError "Failed to process message"
                 (obj [("messageId", JStr id); ("stream", JStr stream);
                       ("error", JStr message)])]
          | None => []
          end.
Proof.
  intros H. unfold effects. rewrite processMessage_no_envelope by assumption.
  world w. destruct flt as [message|].
  - run. split; [reflexivity | appended].
  - run. destruct (bool_decide _); (split; [reflexivity | appended]).
Qed.

Lemma no_envelope_broker (this : t) (stream id : string)
    (fields : list string) (w : World) :
  truthy (envelopeData fields) = false ->
  fault (broker w) = None ->
  (stream, consumerGroup this, id) ∉ pending (broker (processMessage this stream id fields w).2).
Proof.
  intros H F. rewrite processMessage_no_envelope by assumption.
  world w. simpl in F. subst flt. run.
  destruct (bool_decide _) eqn:E; cbv [snd broker pending].
  - apply xack_clears.
  - by apply bool_decide_eq_false in E.
Qed.

(** *** A message with envelope data *)

Lemma processMessage_decode_failed (this : t) (stream id : string)
    (fields : list string) (w : World) (err : JsValue) :
  truthy (envelopeData fields) = true ->
  decode fields = Throw err ->
  processMessage this stream id fields w
  = (message ← lift (get_prop err "message");
     emit (failure_log stream id message)) w.
Proof.
  intros T D. cbv beta zeta delta [processMessage]. unfold try_catch.
  rewrite T. unfold decode in D. cbn [negb].
  cbv beta delta [mbind M_bind lift]. cbv beta delta [mbind Completion_bind] in D.
  destruct (JSON_parse _) as [raw|e].
  - rewrite D. reflexivity.
  - inversion D; subst. reflexivity.
Qed.

Lemma decode_failed_effects (this : t) (stream id : string)
    (fields : list string) (w : World) (err : JsValue) :
  truthy (envelopeData fields) = true ->
  decode fields = Throw err ->
  let m := processMessage this stream id fields in
  broker (m w).2 = broker w
  /\ match get_prop err "message" with
     | Normal message =>
         (m w).1 = Normal tt /\ effects m w = [failure_log stream id message]
     | Throw t => (m w).1 = Throw t /\ effects m w = []
     end.
Proof.
  intros T D m. subst m. unfold effects.
  rewrite (processMessage_decode_failed _ _ _ _ _ _ T D).
  world w. cbv beta iota zeta delta [mbind M_bind lift emit].
  destruct (get_prop err "message") as [message|t]; cbn.
  - repeat split. appended.
  - repeat split. appended.
Qed.

(** *** Converting the event type to the name of the span *)

(** The key of a registered handler is a string. *)
Lemma registered_is_string (handlers : gmap string EventHandler) (k : JsValue)
    (handler : EventHandler) :
  Map_get handlers k = Some handler -> has_primitive_value k = true.
Proof. by destruct k. Qed.

Lemma ToString_completes (v : JsValue) (s : string) :
  ToString v = Normal s -> has_primitive_value v = true /\ s = to_string v.
Proof.
  unfold ToString. destruct (has_primitive_value v); [|discriminate].
  by intros [= <-].
Qed.

(** A conversion throws one value only. *)
Lemma ToString_throws (v t : JsValue) :
  ToString v = Throw t ->
  has_primitive_value v = false /\ t = TypeError no_primitive_value.
Proof.
  unfold ToString. destruct (has_primitive_value v); [discriminate|].
  by intros [= <-].
Qed.

(** The event type has no primitive value: the template literal of the span
    name throws, and the [catch] block takes the error. *)
Lemma processMessage_unnamed (this : t) (stream id : string)
    (fields : list string) (w : World) (envelope : EventEnvelope) :
  truthy (envelopeData fields) = true ->
  decode fields = Normal envelope ->
  has_primitive_value (eventType envelope) = false ->
  processMessage this stream id fields w
  = emit (failure_log stream id (JStr no_primitive_value)) w.
Proof.
  intros T D S. cbv beta zeta delta [processMessage]. unfold try_catch at 1.
  rewrite T. cbn [negb].
  cbv beta delta [decode mbind Completion_bind] in D.
  cbv beta delta [mbind M_bind lift].
  destruct (JSON_parse _) as [raw|]; [|discriminate D].
  rewrite D. unfold parent_of, ToString. rewrite S.
  by destruct (truthy (traceContext envelope)).
Qed.

Lemma unnamed_effects (this : t) (stream id : string)
    (fields : list string) (w : World) (envelope : EventEnvelope) :
  truthy (envelopeData fields) = true ->
  decode fields = Normal envelope ->
  has_primitive_value (eventType envelope) = false ->
  let m := processMessage this stream id fields in
  (m w).1 = Normal tt
  /\ effects m w = [failure_log stream id (JStr no_primitive_value)]
  /\ broker (m w).2 = broker w.
Proof.
  intros T D S m. subst m. unfold effects.
  rewrite (processMessage_unnamed _ _ _ _ _ _ T D S).
  world w. repeat split. appended.
Qed.

(** Runs [processMessage] up to the envelope, given that the payload is
    there ([T]) and decodes ([D]). *)
Ltac decoded T D :=
  cbv beta zeta delta [processMessage]; unfold try_catch at 1;
  rewrite T; cbn [negb];
  cbv beta delta [decode mbind Completion_bind] in D;
  cbv beta delta [mbind M_bind lift];
  destruct (JSON_parse _) as [raw|]; [|discriminate D];
  rewrite D.

Lemma dispatched_effects (this : t) (stream id : string)
    (fields : list string) (w : World) (envelope : EventEnvelope) :
  truthy (envelopeData fields) = true ->
  decode fields = Normal envelope ->
  has_primitive_value (eventType envelope) = true ->
  let m := processMessage this stream id fields in
  let parent := consumer_parent w envelope in
  let span := tracing.span_in w parent in
  let opening := consumer_span_events span parent envelope in
  match Map_get (handlers this) (eventType envelope) with
  | None =>
      (m w).1 = Normal tt
      /\ effects m w
         = opening
           ++ [SpanEnd span; Cmd (XACK stream (consumerGroup this) id)]
           ++ ack_failure stream id w
  | Some handler =>
      match handler envelope with
      | Normal _ =>
          (m w).1 = Normal tt
          /\ effects m w
             = opening
               ++ [Invoke envelope;
                   Log LDebug "Event processed"
                     (obj [("eventType", eventType envelope);
                           ("eventId", eventId envelope)]);
                   SpanEnd span;
                   Cmd (XACK stream (consumerGroup this) id)]
               ++ ack_failure stream id w
      | Throw e =>
          broker (m w).2 = broker w
          /\ match get_prop e "message" with
             | Normal message =>
                 (m w).1 = Normal tt
                 /\ effects m w
                    = opening
                      ++ [Invoke envelope; SpanRecordException span e;
                          SpanEnd span; failure_log stream id message]
             | Throw t =>
                 (m w).1 = Throw t
                 /\ effects m w
                    = opening
                      ++ [Invoke envelope; SpanRecordException span e;
                          SpanEnd span]
             end
      end
  end.
Proof.
  intros T D S m parent span opening. subst m opening span parent.
  unfold effects, ack_failure, consumer_parent.
  decoded T D. unfold parent_of, ToString. rewrite S.
  world w.
  destruct (Map_get (handlers this) (eventType envelope)) as [handler|].
  - destruct (truthy (traceContext envelope)), tcr; run;
      (destruct (handler envelope) as [[]|e];
       [ destruct flt; run; try destruct (bool_decide _);
         (split; [reflexivity | appended])
       | run; destruct e; run;
         (split; [reflexivity | split; [reflexivity | appended]]) ]).
  - destruct (truthy (traceContext envelope)), tcr, flt; run;
      try destruct (bool_decide _); (split; [reflexivity | appended]).
Qed.

Lemma dispatched_broker (this : t) (stream id : string)
    (fields : list string) (w : World) (envelope : EventEnvelope) :
  truthy (envelopeData fields) = true ->
  decode fields = Normal envelope ->
  has_primitive_value (eventType envelope) = true ->
  fault (broker w) = None ->
  match Map_get (handlers this) (eventType envelope) with
  | None => True
  | Some handler => handler envelope = Normal tt
  end ->
  (stream, consumerGroup this, id)
    ∉ pending (broker (processMessage this stream id fields w).2).
Proof.
  intros T D S F H. decoded T D. unfold parent_of, ToString. rewrite S.
  world w. simpl in F. subst flt.
  destruct (Map_get (handlers this) (eventType envelope)) as [handler|];
    destruct (truthy (traceContext envelope)), tcr; run; rewrite ?H; run;
    (destruct (bool_decide _) eqn:E; cbv [snd broker pending];
     [apply xack_clears | by apply bool_decide_eq_false in E]).
Qed.

Lemma consumer_span_is_started (this : t) (stream id : string)
    (fields : list string) (w : World) (envelope : EventEnvelope) :
  truthy (envelopeData fields) = true ->
  decode fields = Normal envelope ->
  has_primitive_value (eventType envelope) = true ->
  let parent := consumer_parent w envelope in
  SpanStart (tracing.span_in w parent) ("consume " +:+ to_string (eventType envelope))
    CONSUMER JUndefined parent
    ∈ effects (processMessage this stream id fields) w.
Proof.
  intros T D S parent. subst parent.
  pose proof (dispatched_effects this stream id fields w envelope T D S) as E.
  cbv zeta in E.
  destruct (Map_get (handlers this) (eventType envelope)) as [handler|].
  - destruct (handler envelope) as [[]|e].
    + destruct E as [_ ->]. is_in.
    + destruct E as [_ E]. destruct (get_prop e "message"); destruct E as [_ ->]; is_in.
  - destruct E as [_ ->]. is_in.
Qed.

Lemma consume_failed_effects (name message : string) (w : World) :
  effects (consume_failed (Error_ name message)) w
  = [Log LError "Error consuming events" (obj [("error", JStr message)]);
     Sleep 5000%N].
Proof. world w. unfold effects. run. appended. Qed.

(** *** The claims on [processMessage] *)

(** C9. A delivered message whose field list has neither a [data] nor a
    [payload] key gets a warning and is acknowledged, and no handler is
    invoked. *)
Theorem message_without_wrapper_is_acknowledged (this : t) (stream id : string)
    (fields : list string) (w : World) :
  "data" ∉ field_names fields ->
  "payload" ∉ field_names fields ->
  let m := processMessage this stream id fields in
  Log LWarn "Message missing data field"
    (obj [("messageId", JStr id); ("stream", JStr stream)]) ∈ effects m w
  /\ acknowledges m stream (consumerGroup this) id w
  /\ invokes_no_handler m w.
Proof.
  intros Hd Hp m.
  assert (T : truthy (envelopeData fields) = false)
    by (rewrite envelopeData_absent by assumption; reflexivity).
  destruct (no_envelope_effects this stream id fields w T) as [_ E].
  subst m. unfold acknowledges, invokes_no_handler. rewrite E.
  split; [is_in|]. split; [split; [is_in|]|].
  - intros F. by apply no_envelope_broker.
  - intros envelope. unfold failure_log. destruct (fault (broker w)); not_in.
Qed.

(** C10, as the code has it. A decoded envelope whose event type has no
    registered handler invokes no handler. It is acknowledged when the event
    type can be written into the name of the consumer span, as every string,
    number, boolean, [null] and [undefined] can: the span is opened and ended
    and the [XACK] is sent. When the event type is an object with an own
    [toString] (or an array that holds one), the template literal of the
    span name throws a [TypeError]: the [catch] block logs it and the
    message is left unacknowledged. *)
Theorem unhandled_event_is_acknowledged (this : t) (stream id : string)
    (fields : list string) (w : World) (envelope : EventEnvelope) :
  truthy (envelopeData fields) = true ->
  decode fields = Normal envelope ->
  Map_get (handlers this) (eventType envelope) = None ->
  let m := processMessage this stream id fields in
  let parent := consumer_parent w envelope in
  let span := tracing.span_in w parent in
  invokes_no_handler m w
  /\ (m w).1 = Normal tt
  /\ (forall name, ToString (eventType envelope) = Normal name ->
        SpanStart span ("consume " +:+ name) CONSUMER JUndefined parent ∈ effects m w
        /\ SpanEnd span ∈ effects m w
        /\ acknowledges m stream (consumerGroup this) id w)
  /\ (forall t, ToString (eventType envelope) = Throw t ->
        effects m w = [failure_log stream id (JStr no_primitive_value)]
        /\ leaves_unacknowledged m stream (consumerGroup this) id w).
Proof.
  intros T D G m parent span. subst m span parent.
  destruct (has_primitive_value (eventType envelope)) eqn:S.
  - pose proof (dispatched_effects this stream id fields w envelope T D S) as E.
    pose proof (dispatched_broker this stream id fields w envelope T D S) as B.
    cbv zeta in E. rewrite G in E, B. destruct E as [R E].
    unfold invokes_no_handler, acknowledges. rewrite E.
    split; [|split; [exact R|split]].
    + intros e. unfold consumer_span_events, ack_failure, failure_log.
      destruct (fault (broker w)); not_in.
    + intros name [_ ->]%ToString_completes.
      split; [unfold consumer_span_events; is_in|].
      split; [apply list_elem_of_In, in_or_app; right; simpl; auto|].
      split; [apply list_elem_of_In, in_or_app; right; simpl; auto|].
      intros F. by apply B.
    + intros t [X _]%ToString_throws. congruence.
  - destruct (unnamed_effects this stream id fields w envelope T D S) as (R & E & B).
    unfold invokes_no_handler, leaves_unacknowledged. rewrite E.
    split; [|split; [exact R|split]].
    + intros e. unfold failure_log. not_in.
    + intros name [X _]%ToString_completes. congruence.
    + intros t _. split; [reflexivity|]. split; [|exact B].
      unfold failure_log. not_in.
Qed.

(** C1. A message that decodes to an envelope with a registered handler is
    acknowledged if and only if the handler completes. When the handler
    throws, the thrown value is recorded on the consumer span, the entry is
    left unacknowledged and the failure is logged: by the [catch] block of
    [processMessage] when the thrown value has a [message] to read, and
    otherwise (a thrown [null] or [undefined]) the read of [message] throws
    out of [processMessage] and the [catch] block of the polling loop logs
    that. *)
Theorem acknowledged_iff_handler_completes (this : t) (stream id : string)
    (fields : list string) (w : World) (envelope : EventEnvelope)
    (handler : EventHandler) :
  truthy (envelopeData fields) = true ->
  decode fields = Normal envelope ->
  Map_get (handlers this) (eventType envelope) = Some handler ->
  let m := processMessage this stream id fields in
  let span := tracing.span_in w (consumer_parent w envelope) in
  Invoke envelope ∈ effects m w
  /\ (Cmd (XACK stream (consumerGroup this) id) ∈ effects m w
      <-> handler envelope = Normal tt)
  /\ (handler envelope = Normal tt ->
      acknowledges m stream (consumerGroup this) id w)
  /\ (forall e, handler envelope = Throw e ->
        SpanStart span ("consume " +:+ to_string (eventType envelope)) CONSUMER
          JUndefined (consumer_parent w envelope) ∈ effects m w
        /\ SpanRecordException span e ∈ effects m w
        /\ leaves_unacknowledged m stream (consumerGroup this) id w
        /\ match get_prop e "message" with
           | Normal message => failure_log stream id message ∈ effects m w
           | Throw t =>
               (m w).1 = Throw t
               /\ exists message,
                    Log LError "Error consuming events" (obj [("error", message)])
                      ∈ effects (consume_failed t) (m w).2
           end).
Proof.
  intros T D G m span.
  pose proof (registered_is_string _ _ _ G) as S.
  pose proof (dispatched_effects this stream id fields w envelope T D S) as E.
  pose proof (dispatched_broker this stream id fields w envelope T D S) as B.
  cbv zeta in E. rewrite G in E, B. subst m span.
  unfold acknowledges, leaves_unacknowledged.
  destruct (handler envelope) as [[]|e] eqn:H.
  - destruct E as [_ E]. rewrite E. split; [is_in|].
    split; [split; [reflexivity | intros _; is_in]|].
    split; [intros _; split; [is_in | intros F; by apply B]|].
    intros e [=].
  - destruct E as [Hb E]. split; [|split; [|split; [intros [=]|]]].
    + destruct (get_prop e "message"); destruct E as [_ ->]; is_in.
    + split; [|intros [=]]. unfold consumer_span_events, failure_log in E.
      destruct (get_prop e "message"); destruct E as [_ ->]; not_in.
    + intros e' [= <-].
      destruct (get_prop e "message") as [message|t] eqn:Hm; destruct E as [R E];
        rewrite E; (split; [is_in|]); (split; [is_in|]);
        (split; [split; [unfold consumer_span_events, failure_log; not_in
                        | exact Hb]|]).
      * is_in.
      * split; [exact R|]. destruct e; try discriminate Hm;
          inversion Hm; subst t; eexists; unfold TypeError;
          rewrite consume_failed_effects; is_in.
Qed.

Lemma normalize_object (m : gmap string JsValue) :
  normalize (JObj m) = Normal (either_dialect m).
Proof.
  unfold normalize, either_dialect, either, js_or.
  cbv beta iota delta [mbind mret Completion_bind Completion_ret get_prop].
  repeat match goal with
         | |- context [truthy ?v] => destruct (truthy v)
         end; reflexivity.
Qed.

(** C3, as the code has it. A payload that is there and that [JSON.parse]
    rejects is not acknowledged: no handler runs, no [XACK] is sent, the
    broker keeps the entry pending, and the error is logged by the [catch]
    block. *)
Theorem unparseable_payload_is_left_pending (this : t) (stream id : string)
    (fields : list string) (w : World) (err : JsValue) :
  truthy (envelopeData fields) = true ->
  JSON_parse (to_string (envelopeData fields)) = Throw err ->
  let m := processMessage this stream id fields in
  leaves_unacknowledged m stream (consumerGroup this) id w
  /\ invokes_no_handler m w
  /\ (forall message, get_prop err "message" = Normal message ->
        effects m w = [failure_log stream id message]).
Proof.
  intros T P m.
  assert (D : decode fields = Throw err) by (unfold decode; rewrite P; reflexivity).
  destruct (decode_failed_effects this stream id fields w err T D) as [B E].
  subst m. unfold leaves_unacknowledged, invokes_no_handler, failure_log in *.
  destruct (get_prop err "message") as [message|t]; destruct E as [_ E];
    rewrite E; (split; [split; [not_in | exact B]|]);
    (split; [intros e; not_in|]); intros message' [=]; by subst.
Qed.

(** C5, as the code has it. Building the envelope from a parsed object never
    fails: each field is taken in either spelling. When the object has none
    of [eventId], [event_id], [eventType] and [event_type], the envelope has
    [undefined] there, the consumer span is opened under the name
    [consume undefined], no handler is invoked and the message is
    acknowledged. *)
Theorem envelope_without_ids_is_acknowledged (this : t) (stream id : string)
    (fields : list string) (w : World) (m : gmap string JsValue) :
  truthy (envelopeData fields) = true ->
  JSON_parse (to_string (envelopeData fields)) = Normal (JObj m) ->
  let pm := processMessage this stream id fields in
  let envelope := either_dialect m in
  decode fields = Normal envelope
  /\ (m !! "eventId" = None -> m !! "event_id" = None ->
      m !! "eventType" = None -> m !! "event_type" = None ->
      eventId envelope = JUndefined
      /\ eventType envelope = JUndefined
      /\ SpanStart (tracing.span_in w (consumer_parent w envelope)) "consume undefined"
           CONSUMER JUndefined (consumer_parent w envelope) ∈ effects pm w
      /\ invokes_no_handler pm w
      /\ acknowledges pm stream (consumerGroup this) id w).
Proof.
  intros T P pm envelope.
  assert (D : decode fields = Normal envelope).
  { unfold decode. rewrite P. apply normalize_object. }
  split; [exact D|]. intros I1 I2 T1 T2.
  assert (Ei : eventId envelope = JUndefined).
  { subst envelope. unfold either_dialect. cbn [eventId]. by rewrite I1, I2. }
  assert (Et : eventType envelope = JUndefined).
  { subst envelope. unfold either_dialect. cbn [eventType]. by rewrite T1, T2. }
  assert (G : Map_get (handlers this) (eventType envelope) = None)
    by (rewrite Et; reflexivity).
  assert (S : has_primitive_value (eventType envelope) = true)
    by (rewrite Et; reflexivity).
  pose proof (dispatched_effects this stream id fields w envelope T D S) as E.
  pose proof (dispatched_broker this stream id fields w envelope T D S) as B.
  cbv zeta in E. rewrite G in E, B. destruct E as [_ E].
  split; [exact Ei|]. split; [exact Et|].
  subst pm. unfold invokes_no_handler, acknowledges. rewrite E.
  split; [unfold consumer_span_events; rewrite Et; is_in|]. split.
  - intros e. unfold consumer_span_events, ack_failure, failure_log.
    destruct (fault (broker w)); not_in.
  - split; [apply list_elem_of_In, in_or_app; right; simpl; auto|].
    intros F. by apply B.
Qed.

End consumer_properties.

(** ** Subscribing *)

Section subscribe_properties.
Context {rt : Runtime}.
Import RedisStreamsConsumer.

Lemma lookup_Error_message (name message : string) :
  (list_to_map [("name", JStr name); ("message", JStr message)]
     : gmap string JsValue) !! "message" = Some (JStr message).
Proof. reflexivity. Qed.

Lemma BUSYGROUP_includes :
  String_includes "BUSYGROUP" "BUSYGROUP Consumer Group name already exists" = true.
Proof. reflexivity. Qed.

Lemma elem_of_Set_add (x : string) (l : list string) : x ∈ Set_add x l.
Proof.
  unfold Set_add. destruct (bool_decide (x ∈ l)) eqn:E.
  - by apply bool_decide_eq_true in E.
  - apply elem_of_app. right. by left.
Qed.

Lemma subscribe_run (this : t) (eventType : string) (handler : EventHandler)
    (w : World) :
  let stream := getStreamName eventType in
  subscribe this eventType handler w
  = (Normal tt, subscribed this eventType handler,
     set_broker (client.set_groups (groups_after this stream (broker w)) (broker w))
       (set_trace (trace w ++ creation_events this stream (broker w)
                           ++ start_events this eventType handler) w)).
Proof.
  intros stream. subst stream. world w. destruct this as [sn cg cn hs rn ss].
  unfold subscribe, creation_events, start_events, groups_after, subscribed.
  cbv beta iota zeta delta
    [set_handlers set_streams set_running serviceName consumerGroup
     consumerName handlers running streams startConsuming consume_loop].
  destruct flt as [message|].
  - run. rewrite !lookup_Error_message. run.
    destruct (String_includes "BUSYGROUP" message), rn; run;
      rewrite <- ?app_assoc, ?app_nil_r; reflexivity.
  - run. destruct (bool_decide _), rn; run;
      unfold client.BUSYGROUP, Error_; run; rewrite ?lookup_Error_message; run;
      rewrite ?BUSYGROUP_includes; run;
      rewrite <- ?app_assoc, ?app_nil_r; reflexivity.
Qed.

Lemma groups_after_NoDup (this : t) (stream : string) (b : Broker) :
  NoDup (groups b) -> NoDup (groups_after this stream b).
Proof.
  intros N. unfold groups_after, client.has_group.
  destruct (fault b); [exact N|].
  destruct (bool_decide _) eqn:E; [exact N|].
  apply bool_decide_eq_false in E.
  apply NoDup_app. split; [exact N|]. split.
  - intros x Hx ->%list_elem_of_singleton. by apply E.
  - apply NoDup_singleton.
Qed.

(** C4, as the code has it. [subscribe] never raises on the creation of the
    group and always establishes the subscription: the handler is
    registered, the stream is subscribed, the consumer runs, and the loop is
    started if it was not running. A group that exists is not created again
    and nothing is logged for it; any other error of the creation is logged
    and otherwise ignored. *)
Theorem subscribe_survives_group_creation (this : t) (eventType : string)
    (handler : EventHandler) (w : World) :
  let stream := getStreamName eventType in
  let '(r, this', w') := subscribe this eventType handler w in
  r = Normal tt
  /\ handlers this' !! eventType = Some handler
  /\ stream ∈ streams this'
  /\ running this' = true
  /\ (running this = false ->
      exists meta, Log LInfo "Starting event consumption" meta ∈ events_since w w')
  /\ (fault (broker w) = None ->
      client.has_group stream (consumerGroup this) (broker w) = true ->
      groups (broker w') = groups (broker w)
      /\ forall msg meta, Log LError msg meta ∉ events_since w w')
  /\ (NoDup (groups (broker w)) -> NoDup (groups (broker w')))
  /\ (forall message,
        fault (broker w) = Some message ->
        String_includes "BUSYGROUP" message = false ->
        Log LError "Failed to create consumer group"
          (obj [("stream", JStr stream); ("error", JStr message)])
          ∈ events_since w w').
Proof.
  intros stream. rewrite subscribe_run. fold stream.
  set (w' := set_broker _ _).
  assert (E : events_since w w'
              = creation_events this stream (broker w)
                ++ start_events this eventType handler).
  { apply events_since_app. subst w'. destruct w. reflexivity. }
  rewrite E. clear E.
  split; [reflexivity|].
  split; [destruct this; cbn; apply lookup_insert_eq|].
  split; [destruct this; cbn; apply elem_of_Set_add|].
  split; [destruct this; reflexivity|].
  split; [|split; [|split]].
  - intros R. unfold start_events. rewrite R. eexists.
    apply elem_of_app. right. by left.
  - intros F G. split.
    + subst w'. destruct w as [? b ? ? ? ? ? ?]. cbn.
      unfold groups_after. cbn in F, G. by rewrite F, G.
    + intros msg meta. unfold creation_events, start_events.
      rewrite F, G. destruct (running this); not_in.
  - intros N. subst w'. destruct w as [? b ? ? ? ? ? ?]. cbn.
    by apply groups_after_NoDup.
  - intros message F I. unfold creation_events. rewrite F, I.
    apply list_elem_of_In. simpl. auto.
Qed.

End subscribe_properties.

(** ** The round trip of an envelope *)

Section round_trip.
Context {rt : Runtime}.
Import RedisStreamsConsumer.

Lemma json_image_obj (l : list (string * JsValue)) :
  json_image (obj l) = JObj (omap carried (list_to_map l)).
Proof. reflexivity. Qed.

Lemma carried_fixed (v : JsValue) :
  json_image v = v -> default JUndefined (Some v ≫= carried) = v.
Proof.
  intros H. destruct v; try reflexivity; cbn [mbind option_bind carried default];
    exact H.
Qed.

Lemma carried_string (v : JsValue) :
  is_optional_string v = true -> default JUndefined (Some v ≫= carried) = v.
Proof. by destruct v. Qed.

(** Reads off the properties of an object literal with known keys. *)
Ltac lookups :=
  repeat match goal with
         | |- context [@lookup string JsValue _ _ ?k ?m] =>
             let v := eval vm_compute in (m !! k) in
             progress change (m !! k) with v
         end.

Lemma json_image_string (v : JsValue) :
  is_optional_string v = true -> json_image v = v.
Proof. by destruct v. Qed.

Lemma optional_object_truthy (v : JsValue) :
  is_optional_object v = true -> v = JUndefined \/ truthy v = true.
Proof. destruct v; try discriminate; auto. Qed.

Lemma string_is_optional (v : JsValue) :
  is_string v = true -> is_optional_string v = true.
Proof. by destruct v. Qed.

(** A field written under its camelCase name is read from there. *)
Lemma camel_read (v : JsValue) :
  json_image v = v -> v = JUndefined \/ truthy v = true ->
  js_or (default JUndefined (Some v ≫= carried))
        (default JUndefined (None ≫= carried)) = v.
Proof.
  intros J H. rewrite (carried_fixed v J). unfold js_or.
  destruct H as [-> | ->]; reflexivity.
Qed.

(** A field written under its snake_case name is read from there. *)
Lemma snake_read (v : JsValue) :
  json_image v = v ->
  js_or (default JUndefined (None ≫= carried))
        (default JUndefined (Some v ≫= carried)) = v.
Proof. intros J. rewrite (carried_fixed v J). reflexivity. Qed.

Lemma normalize_json_image (e : EventEnvelope) (o : JsValue) :
  valid_envelope e -> nonempty_ids e ->
  o = envelope_object e \/ o = envelope_object_snake e ->
  normalize (json_image o) = Normal e.
Proof.
  intros V N [-> | ->];
    [unfold envelope_object | unfold envelope_object_snake];
    rewrite json_image_obj, normalize_object;
    destruct V, N; destruct e as [eid ety ts src ver cor cau tc md dt]; cbn in *;
    unfold either_dialect; rewrite !lookup_omap; lookups; f_equal; f_equal;
    first [ apply camel_read | apply snake_read | apply carried_fixed ];
    auto using json_image_string, string_is_optional, optional_object_truthy.
Qed.

Lemma envelopeData_data (payload : string) :
  is_empty payload = false -> envelopeData ["data"; payload] = JStr payload.
Proof.
  intros H. unfold envelopeData. cbn [parse_fields].
  change (String.eqb "data" "__proto__") with false. cbn iota.
  rewrite lookup_insert_eq. unfold js_or. cbn. by rewrite H.
Qed.

Lemma normalize_snake (e : EventEnvelope) :
  valid_envelope e -> normalize (json_image (envelope_object_snake e)) = Normal e.
Proof.
  intros V. unfold envelope_object_snake.
  rewrite json_image_obj, normalize_object.
  destruct V; destruct e as [eid ety ts src ver cor cau tc md dt]; cbn in *.
  unfold either_dialect. rewrite !lookup_omap. lookups. f_equal; f_equal;
    first [ apply snake_read | apply carried_fixed ];
    auto using json_image_string, string_is_optional.
Qed.

(** A field written under its camelCase name only is read with
    [v || undefined]. *)
Lemma camel_read_or (v : JsValue) :
  json_image v = v ->
  js_or (default JUndefined (Some v ≫= carried))
        (default JUndefined (None ≫= carried)) = js_or v JUndefined.
Proof. intros J. by rewrite (carried_fixed v J). Qed.

Lemma normalize_camel (e : EventEnvelope) :
  valid_envelope e ->
  normalize (json_image (envelope_object e)) = Normal (without_empty_ids e).
Proof.
  intros V. unfold envelope_object, without_empty_ids.
  rewrite json_image_obj, normalize_object.
  destruct V; destruct e as [eid ety ts src ver cor cau tc md dt]; cbn in *.
  unfold either_dialect. rewrite !lookup_omap. lookups. f_equal; f_equal;
    first [ apply camel_read; [assumption | by apply optional_object_truthy]
          | apply camel_read_or | apply carried_fixed ];
    auto using json_image_string, string_is_optional.
Qed.

Lemma js_or_undefined (v : JsValue) :
  js_or v JUndefined = v <-> v = JUndefined \/ truthy v = true.
Proof.
  unfold js_or. destruct (truthy v) eqn:T.
  - split; auto.
  - split; [intros <-; by left | by intros [-> | ?]].
Qed.

Lemma without_empty_ids_fixed (e : EventEnvelope) :
  valid_envelope e -> without_empty_ids e = e <-> nonempty_ids e.
Proof.
  intros V. destruct V. destruct e as [eid ety ts src ver cor cau tc md dt].
  cbn in *. unfold without_empty_ids. cbn. split.
  - intros [= E1 E2 E3 E4]. constructor; cbn.
    + apply js_or_undefined in E1 as [-> | E1]; [discriminate | exact E1].
    + apply js_or_undefined in E2 as [-> | E2]; [discriminate | exact E2].
    + by apply js_or_undefined.
    + by apply js_or_undefined.
  - intros [N1 N2 N3 N4]. cbn in *. f_equal; apply js_or_undefined; auto.
Qed.

(** C6, as the code has it. An envelope of the interface comes back field by
    field from its snake_case encoding, whatever its ids. From the camelCase
    encoding, which is what the publisher writes with [JSON.stringify] into
    the field [data] of the entry, it comes back with every id that is the
    empty string replaced by [undefined], since a camelCase field is read
    with [||]; so that round trip holds exactly for the envelopes whose ids
    are absent or not empty. The platform is assumed to carry the encoded
    object through [JSON.stringify] and [JSON.parse] as JSON does. *)
Theorem decode_encode_round_trip (e : EventEnvelope) :
  valid_envelope e ->
  (carried_by_JSON (envelope_object_snake e) ->
   decode ["data"; JSON_stringify (envelope_object_snake e)] = Normal e)
  /\ (carried_by_JSON (envelope_object e) ->
      decode ["data"; JSON_stringify (envelope_object e)]
      = Normal (without_empty_ids e))
  /\ (without_empty_ids e = e <-> nonempty_ids e).
Proof.
  intros V. split; [|split].
  - intros [S P]. unfold decode.
    rewrite (envelopeData_data _ S). cbn [to_string]. rewrite P.
    cbn [mbind Completion_bind]. by apply normalize_snake.
  - intros [S P]. unfold decode.
    rewrite (envelopeData_data _ S). cbn [to_string]. rewrite P.
    cbn [mbind Completion_bind]. by apply normalize_camel.
  - by apply without_empty_ids_fixed.
Qed.

End round_trip.

(** ** Publishing *)

Section publish_properties.
Context {rt : Runtime}.
Import EventPublisher.

Lemma or_str_self (s : string) : or_str (Some s) "" = s.
Proof. by destruct s. Qed.

Lemma publish_run (this : t) (eventType : string) (data : JsValue)
    (options : option PublishOptions) (w : World) :
  fault (broker w) = None ->
  let envelope := published_envelope this eventType data options w in
  (publish this eventType data options w).1 = Normal (next_id w)
  /\ effects (publish this eventType data options) w
     = publish_events this eventType envelope w
  /\ entries (broker (publish this eventType data options w).2)
     = entries (broker w)
       ++ [(getStreamName this eventType, next_id w,
            ["data"; JSON_stringify (envelope_object envelope)])].
Proof.
  intros F envelope. subst envelope. world w. cbn in F. subst flt.
  unfold effects, publish_events, published_envelope, next_id.
  cbv beta iota zeta delta
    [publish events.createEventEnvelope events.uuid events.now_iso spread
     events.opt events.o_correlationId events.o_causationId
     events.o_traceContext events.o_metadata].
  destruct tcr; run; rewrite or_str_self;
    (split; [reflexivity | split; [appended | reflexivity]]).
Qed.

End publish_properties.

(** ** Splitting a string *)

Section splitting.
Import reference.

Lemma split_free (sep : ascii) (s rest : string) :
  free_of sep s = true ->
  String_split sep (s +:+ String sep rest) = s :: String_split sep rest.
Proof.
  unfold free_of. induction s as [|c s IH]; simpl; intros H.
  - by rewrite Ascii.eqb_refl.
  - apply andb_prop in H as [Hc Hs]. apply negb_true_iff in Hc.
    rewrite Hc, (IH Hs). reflexivity.
Qed.

Lemma split_free_end (sep : ascii) (s : string) :
  free_of sep s = true -> String_split sep s = [s].
Proof.
  unfold free_of. induction s as [|c s IH]; simpl; intros H; [reflexivity|].
  apply andb_prop in H as [Hc Hs]. apply negb_true_iff in Hc.
  rewrite Hc, (IH Hs). reflexivity.
Qed.

End splitting.

(** ** Trace propagation from the publisher to the consumer *)

Section trace_propagation.
Context {rt : Runtime}.
Import EventPublisher.


End trace_propagation.

(** ** Stream names *)

Lemma length_append (a b : string) :
  String.length (a +:+ b) = String.length a + String.length b.
Proof. induction a as [|c a IH]; simpl; [reflexivity | by rewrite IH]. Qed.

(** C2, on the code. The publisher appends an [s] to the domain and the
    consumer does not: with the default prefix the publisher's stream name
    is the consumer's followed by [s], so the two derivations agree on no
    event type. *)
Theorem stream_names_differ (service eventType : string) :
  EventPublisher.getStreamName (EventPublisher.new service None) eventType
  = RedisStreamsConsumer.getStreamName eventType +:+ "s"
  /\ EventPublisher.getStreamName (EventPublisher.new service None) eventType
     <> RedisStreamsConsumer.getStreamName eventType.
Proof.
  assert (E : EventPublisher.getStreamName (EventPublisher.new service None) eventType
              = RedisStreamsConsumer.getStreamName eventType +:+ "s").
  { unfold EventPublisher.getStreamName, RedisStreamsConsumer.getStreamName.
    cbn [EventPublisher.streamPrefix EventPublisher.new default].
    generalize (index0 (String_split "." eventType)). intros domain.
    reflexivity. }
  split; [exact E|]. rewrite E. intros H.
  apply (f_equal String.length) in H. rewrite length_append in H.
  simpl in H. lia.
Qed.

(** The event type [user.registered]: the publisher writes to
    [events:users], the consumer reads [events:user]. *)
Example stream_names_of_user_registered :
  EventPublisher.getStreamName (EventPublisher.new "auth" None) "user.registered"
  = "events:users"
  /\ RedisStreamsConsumer.getStreamName "user.registered" = "events:user".
Proof. split; reflexivity. Qed.

(** ** The claims on [processMessage], run on the reference platform *)

Section consumer_examples.
Import RedisStreamsConsumer reference.
#[local] Existing Instance reference.runtime.

Lemma message_without_wrapper_witness :
  let m := processMessage consumer0 "events:user" "1-0"
             ["event_type"; "user.registered"; "event_id"; "abc"] in
  Log LWarn "Message missing data field"
    (obj [("messageId", JStr "1-0"); ("stream", JStr "events:user")])
    ∈ effects m world1
  /\ acknowledges m "events:user" "product-group" "1-0" world1
  /\ invokes_no_handler m world1.
Proof.
  apply (message_without_wrapper_is_acknowledged consumer0 "events:user" "1-0"
           ["event_type"; "user.registered"; "event_id"; "abc"] world1);
    (apply (bool_decide_unpack _); vm_compute; exact I).
Defined.

Lemma unhandled_event_witness :
  let m := processMessage consumer0 "events:user" "1-0"
             ["data"; json "{'eventId':'e9','eventType':'user.deleted'}"] in
  invokes_no_handler m world1
  /\ acknowledges m "events:user" "product-group" "1-0" world1
  /\ (m world1).1 = Normal tt.
Proof.
  destruct (unhandled_event_is_acknowledged consumer0 "events:user" "1-0"
              ["data"; json "{'eventId':'e9','eventType':'user.deleted'}"] world1
              (either_dialect (<["eventId" := JStr "e9"]>
                                 (<["eventType" := JStr "user.deleted"]> ∅))))
    as (I & R & A & _); [vm_compute; reflexivity ..|].
  split; [exact I|]. split; [|exact R].
  by apply (A "user.deleted").
Defined.

(** C10 fails on the code: the payload decodes and no handler is registered
    for its event type, an object with an own [toString]; the name of the
    consumer span cannot be built, so no span is opened, the [TypeError] is
    logged, no [XACK] is sent and the entry stays pending. *)
Lemma unnamed_event_is_left_pending :
  let fields := ["data"; json "{'eventId':'e1','eventType':{'toString':1}}"] in
  let m := processMessage consumer0 "events:user" "1-0" fields in
  decode fields
  = Normal (either_dialect
              (<["eventId" := JStr "e1"]>
                 (<["eventType" := obj [("toString", JNum 1)]]> ∅)))
  /\ Map_get (handlers consumer0) (obj [("toString", JNum 1)]) = None
  /\ effects m world1
     = [failure_log "events:user" "1-0"
          (JStr "Cannot convert object to primitive value")]
  /\ (Cmd (XACK "events:user" "product-group" "1-0") ∉ effects m world1)
  /\ ("events:user", "product-group", "1-0") ∈ pending (broker (m world1).2).
Proof.
  assert (E : effects (processMessage consumer0 "events:user" "1-0"
                         ["data"; json "{'eventId':'e1','eventType':{'toString':1}}"])
                world1
              = [failure_log "events:user" "1-0"
                   (JStr "Cannot convert object to primitive value")])
    by (vm_compute; reflexivity).
  cbv zeta. rewrite E.
  split; [vm_compute; reflexivity|]. split; [reflexivity|]. split; [reflexivity|].
  split; [unfold failure_log; not_in|].
  apply (bool_decide_unpack _). vm_compute. exact I.
Qed.

Lemma handler_completes_witness :
  decode ["payload"; registered_payload] = Normal registered_envelope
  /\ let m := processMessage consumer0 "events:user" "1-0"
                ["payload"; registered_payload] in
     Invoke registered_envelope ∈ effects m world1
     /\ acknowledges m "events:user" "product-group" "1-0" world1.
Proof.
  split; [vm_compute; reflexivity|].
  destruct (acknowledged_iff_handler_completes consumer0 "events:user" "1-0"
              ["payload"; registered_payload] world1 registered_envelope
              (fun _ => Normal tt))
    as (I & _ & A & _); [vm_compute; reflexivity ..|].
  split; [exact I | apply A; reflexivity].
Defined.

(** The handler of [order.created] throws: the span records the error, the
    failure is logged and nothing is acknowledged. *)
Example handler_throws :
  let m := processMessage consumer0 "events:order" "2-0" ["data"; created_payload] in
  let span := tracing.span_in world1 None in
  effects m world1
  = consumer_span_events span None created_envelope
    ++ [Invoke created_envelope;
        SpanRecordException span (Error_ "Error" "out of stock");
        SpanEnd span;
        failure_log "events:order" "2-0" (JStr "out of stock")]
  /\ pending (broker (m world1).2) = pending (broker world1).
Proof. split; vm_compute; reflexivity. Qed.

(** C3 fails on the code: the payload [{oops] is not JSON; the consumer logs
    the error and sends no [XACK], and the entry is still pending. *)
Lemma unparseable_payload_not_acknowledged :
  let m := processMessage consumer0 "events:user" "1-0" ["data"; "{oops"] in
  effects m world1
  = [failure_log "events:user" "1-0" (JStr "Unexpected token in JSON")]
  /\ ("events:user", "product-group", "1-0") ∈ pending (broker (m world1).2)
  /\ ~ acknowledges m "events:user" "product-group" "1-0" world1.
Proof.
  assert (E : effects (processMessage consumer0 "events:user" "1-0" ["data"; "{oops"])
                world1
              = [failure_log "events:user" "1-0" (JStr "Unexpected token in JSON")])
    by (vm_compute; reflexivity).
  cbv zeta. split; [exact E|]. split.
  - apply (bool_decide_unpack _). vm_compute. exact I.
  - intros [H _]. rewrite E in H. revert H. unfold failure_log. not_in.
Qed.

Lemma unparseable_payload_witness :
  let m := processMessage consumer0 "events:user" "1-0" ["data"; "{oops"] in
  leaves_unacknowledged m "events:user" "product-group" "1-0" world1
  /\ invokes_no_handler m world1.
Proof.
  destruct (unparseable_payload_is_left_pending consumer0 "events:user" "1-0"
              ["data"; "{oops"] world1
              (SyntaxError "Unexpected token in JSON")) as (L & N & _);
    [vm_compute; reflexivity ..|].
  split; [exact L | exact N].
Defined.

(** C5 fails on the code: the payload [{}] has neither an id nor a type, yet
    it decodes, to an envelope of [undefined] fields; no failure is logged
    and a consumer span [consume undefined] is opened and ended before the
    message is acknowledged. *)
Lemma envelope_without_ids_is_decoded :
  let m := processMessage consumer0 "events:user" "1-0" ["data"; "{}"] in
  let span := tracing.span_in world1 None in
  decode ["data"; "{}"] = Normal (either_dialect ∅)
  /\ (forall err, decode ["data"; "{}"] <> Throw err)
  /\ effects m world1
     = consumer_span_events span None (either_dialect ∅)
       ++ [SpanEnd span; Cmd (XACK "events:user" "product-group" "1-0")]
  /\ SpanStart span "consume undefined" CONSUMER JUndefined None ∈ effects m world1.
Proof.
  assert (D : decode ["data"; "{}"] = Normal (either_dialect ∅))
    by (vm_compute; reflexivity).
  cbv zeta. split; [exact D|]. split; [intros err; rewrite D; discriminate|].
  assert (E : effects (processMessage consumer0 "events:user" "1-0" ["data"; "{}"]) world1
              = consumer_span_events (tracing.span_in world1 None) None (either_dialect ∅)
                ++ [SpanEnd (tracing.span_in world1 None);
                    Cmd (XACK "events:user" "product-group" "1-0")])
    by (vm_compute; reflexivity).
  split; [exact E|]. rewrite E. is_in.
Qed.

Lemma envelope_without_ids_witness :
  let m := processMessage consumer0 "events:user" "1-0" ["data"; json "{'source':'x'}"] in
  decode ["data"; json "{'source':'x'}"] = Normal (either_dialect {["source" := JStr "x"]})
  /\ invokes_no_handler m world1
  /\ acknowledges m "events:user" "product-group" "1-0" world1.
Proof.
  destruct (envelope_without_ids_is_acknowledged consumer0 "events:user" "1-0"
              ["data"; json "{'source':'x'}"] world1 {["source" := JStr "x"]})
    as (D & H); [vm_compute; reflexivity ..|].
  destruct H as (_ & _ & _ & N & A); [vm_compute; reflexivity ..|].
  split; [exact D|]. split; [exact N | exact A].
Defined.

End consumer_examples.

(** ** Subscribing, publishing and the round trip on the reference platform *)

Section library_examples.
Import reference.
#[local] Existing Instance reference.runtime.

(** C4 fails on the code: the broker cannot be reached, so the creation of
    the group fails with an error that is not [BUSYGROUP]; [subscribe] logs
    it, and still registers the handler, subscribes the stream and starts the
    loop. *)
Lemma failed_group_creation_still_subscribes :
  let this := RedisStreamsConsumer.new "product-service" "product-group" 4242 in
  let '(r, this', w') :=
    RedisStreamsConsumer.subscribe this "user.registered" (fun _ => Normal tt)
      world_down in
  r = Normal tt
  /\ is_Some (RedisStreamsConsumer.handlers this' !! "user.registered")
  /\ RedisStreamsConsumer.streams this' = ["events:user"]
  /\ RedisStreamsConsumer.running this' = true
  /\ events_since world_down w'
     = [Cmd (XGROUP_CREATE "events:user" "product-group");
        Log LError "Failed to create consumer group"
          (obj [("stream", JStr "events:user");
                ("error", JStr "Connection is closed.")]);
        Log LInfo "Starting event consumption"
          (obj [("service", JStr "product-service");
                ("streams", JArr [JStr "events:user"])])].
Proof.
  vm_compute. split; [reflexivity|]. split; [eexists; reflexivity|].
  repeat split.
Qed.

Lemma subscribe_survives_witness :
  let this := RedisStreamsConsumer.new "product-service" "product-group" 4242 in
  let '(r, this', w') :=
    RedisStreamsConsumer.subscribe this "user.registered" (fun _ => Normal tt)
      world1 in
  r = Normal tt
  /\ RedisStreamsConsumer.running this' = true
  /\ groups (broker w') = groups (broker world1).
Proof.
  pose proof (subscribe_survives_group_creation
                (RedisStreamsConsumer.new "product-service" "product-group" 4242)
                "user.registered" (fun _ => Normal tt) world1) as H.
  cbv zeta in H |- *.
  destruct (RedisStreamsConsumer.subscribe _ _ _ _) as [[r this'] w'].
  destruct H as (R & _ & _ & Run & _ & G & _).
  split; [exact R|]. split; [exact Run|].
  apply G; reflexivity.
Defined.



(** C6 fails on the code: the envelope is one of the interface, and the
    consumer decodes its correlation id, the empty string, as [undefined]
    from the camelCase encoding the publisher writes. *)
Lemma empty_correlation_id_is_lost :
  valid_envelope uncorrelated
  /\ correlationId uncorrelated = JStr ""
  /\ exists e,
       RedisStreamsConsumer.decode
         ["data"; JSON_stringify (envelope_object uncorrelated)] = Normal e
       /\ correlationId e = JUndefined
       /\ e <> uncorrelated.
Proof.
  split; [constructor; vm_compute; reflexivity|]. split; [reflexivity|].
  eexists. split; [vm_compute; reflexivity|]. split; [reflexivity|].
  intros H. apply (f_equal correlationId) in H. vm_compute in H. discriminate H.
Qed.

Lemma round_trip_witness :
  RedisStreamsConsumer.decode
    ["data"; JSON_stringify (envelope_object_snake uncorrelated)]
  = Normal uncorrelated
  /\ RedisStreamsConsumer.decode ["data"; JSON_stringify (envelope_object correlated)]
     = Normal correlated
  /\ nonempty_ids correlated.
Proof.
  destruct (decode_encode_round_trip uncorrelated) as (S & _ & _);
    [constructor; vm_compute; reflexivity|].
  destruct (decode_encode_round_trip correlated) as (_ & C & N);
    [constructor; vm_compute; reflexivity|].
  split; [apply S; split; vm_compute; reflexivity|].
  split; [|apply N; vm_compute; reflexivity].
  rewrite C by (split; vm_compute; reflexivity). vm_compute. reflexivity.
Defined.

(** The consequence of C2: an event published under [order.created] lands
    on [events:orders]; a consumer subscribed to [order.created] reads
    [events:order], so a turn of its loop finds nothing, invokes no handler,
    and the entry is delivered to no one. *)
Example published_event_is_not_consumed :
  let handler : RedisStreamsConsumer.EventHandler := fun _ => Normal tt in
  let '(_, this, w1) :=
    RedisStreamsConsumer.subscribe
      (RedisStreamsConsumer.new "product-service" "product-group" 4242)
      "order.created" handler world0 in
  let w2 := (EventPublisher.publish publisher0 "order.created" order None w1).2 in
  RedisStreamsConsumer.streams this = ["events:order"]
  /\ map (fun e => e.1.1) (entries (broker w2)) = ["events:orders"]
  /\ effects (RedisStreamsConsumer.poll this) w2
     = [Cmd (XREADGROUP "product-group" "product-service-4242" ["events:order"])]
  /\ pending (broker (RedisStreamsConsumer.poll this w2).2) = [].
Proof. vm_compute. repeat split. Qed.

(** The same envelope in the snake_case encoding. *)
Example round_trip_snake :
  RedisStreamsConsumer.decode
    ["payload"; JSON_stringify (envelope_object_snake correlated)]
  = Normal correlated.
Proof. vm_compute. reflexivity. Qed.

End library_examples.

(** * Further properties of the library *)

(** Closes [x ∉ l] for an explicit list [l] of events. *)
Ltac absent :=
  repeat first [rewrite elem_of_app | rewrite elem_of_cons | rewrite elem_of_nil];
  intuition discriminate.

(** Derives the goal from [H : x ∈ l] for an explicit list [l] of events of
    [processMessage]. *)
Ltac from_events H :=
  unfold RedisStreamsConsumer.consumer_span_events, RedisStreamsConsumer.ack_failure,
    RedisStreamsConsumer.failure_log in H;
  repeat match type of H with
         | context [match ?x with _ => _ end] => destruct x
         end;
  repeat first [rewrite elem_of_app in H | rewrite elem_of_cons in H
               | rewrite elem_of_nil in H];
  intuition (try discriminate; try congruence).

(** ** The tracer and nested spans *)

Section tracing_more.
Context {rt : Runtime}.
Import tracing.

(** X1. The tracer is a singleton: whatever config the first [initTracer]
    gets, a second [initTracer], with any config, and [getTracer] return the
    tracer of the first call and change nothing. *)
Theorem initTracer_is_a_singleton (first second : TracerConfig) (w : World) :
  let '(r, w1) := initTracer first w in
  initTracer second w1 = (r, w1)
  /\ getTracer w1 = (r, w1)
  /\ exists t, r = Normal t /\ tracer w1 = Some t.
Proof.
  world w. destruct tcr as [t|]; cbn.
  - repeat split. by eexists.
  - repeat split. by eexists.
Qed.

(** X2. A span created before [initTracer] was called initialises the tracer
    from the environment alone, and an [initTracer] that comes later, with
    whatever config, returns that tracer: its config is ignored. *)
Theorem first_span_fixes_the_tracer (name : string) (options : SpanOptions)
    (config : TracerConfig) (w : World) :
  tracer w = None ->
  let w1 := (createSpan name options w).2 in
  tracer w1 = Some (lazy_tracer w)
  /\ (initTracer config w1).1 = Normal (lazy_tracer w).
Proof.
  intros H. world w. cbn in H. subst tcr. destruct options as [[p|] k a]; by cbn.
Qed.


End tracing_more.
(** ** One message *)

Section message_more.
Context {rt : Runtime}.
Import RedisStreamsConsumer.

Lemma get_prop_throws (v : JsValue) (k : string) (t : JsValue) :
  get_prop v k = Throw t -> is_Error t.
Proof.
  destruct v; intros [=]; subst; unfold TypeError; by do 2 eexists.
Qed.

Lemma message_of_Error (name message : string) :
  get_prop (Error_ name message) "message" = Normal (JStr message).
Proof. reflexivity. Qed.

Lemma catch_and_log {A} (body : M A) (k : JsValue -> M A) (w : World) :
  (forall message w', exists a, (k message w').1 = Normal a) ->
  match (try_catch body
           (fun error => message ← lift (get_prop error "message"); k message) w).1 with
  | Normal _ => True
  | Throw e =>
      e = TypeError "Cannot read properties of undefined (reading 'message')"
      \/ e = TypeError "Cannot read properties of null (reading 'message')"
  end.
Proof.
  intros K. unfold try_catch. destruct (body w) as [[a|e] w']; [exact I|].
  cbv beta delta [mbind M_bind lift].
  destruct e; cbn [get_prop]; cbv iota; cbn [fst]; auto;
    match goal with
    | |- context [k ?m ?w] => destruct (K m w) as [a Ha]; by rewrite Ha
    end.
Qed.

(** X4. [processMessage] catches whatever its body throws. The one value it
    can throw itself is the [TypeError] of reading [message] off a caught
    [undefined] or [null]. *)
Theorem processMessage_throws_only_TypeError (this : t) (stream id : string)
    (fields : list string) (w : World) :
  match (processMessage this stream id fields w).1 with
  | Normal _ => True
  | Throw e =>
      e = TypeError "Cannot read properties of undefined (reading 'message')"
      \/ e = TypeError "Cannot read properties of null (reading 'message')"
  end.
Proof.
  unfold processMessage. apply catch_and_log.
  intros message w'. by exists tt.
Qed.

(** X5. The only command [processMessage] sends to the broker is the [XACK]
    of the entry it was given: it never appends, never creates a group and
    never acknowledges another entry. *)
Theorem processMessage_sends_only_its_ack (this : t) (stream id : string)
    (fields : list string) (w : World) (c : Command) :
  Cmd c ∈ effects (processMessage this stream id fields) w ->
  c = XACK stream (consumerGroup this) id.
Proof.
  intros H.
  destruct (truthy (envelopeData fields)) eqn:T.
  - destruct (decode fields) as [envelope|err] eqn:D.
    + destruct (has_primitive_value (eventType envelope)) eqn:S.
      * pose proof (dispatched_effects this stream id fields w envelope T D S) as E.
        cbv zeta in E.
        destruct (Map_get (handlers this) (eventType envelope)) as [handler|].
        -- destruct (handler envelope) as [[]|e].
           ++ destruct E as [_ E]. rewrite E in H. from_events H.
           ++ destruct E as [_ E]. destruct (get_prop e "message");
                destruct E as [_ E]; rewrite E in H; from_events H.
        -- destruct E as [_ E]. rewrite E in H. from_events H.
      * destruct (unnamed_effects this stream id fields w envelope T D S)
          as (_ & E & _).
        rewrite E in H. from_events H.
    + destruct (decode_failed_effects this stream id fields w err T D) as [_ E].
      destruct (get_prop err "message"); destruct E as [_ E]; rewrite E in H;
        from_events H.
  - destruct (no_envelope_effects this stream id fields w T) as [_ E].
    rewrite E in H. from_events H.
Qed.

(** X6. A handler is invoked only with the envelope the payload decodes to,
    and only if a handler is registered for its event type. *)
Theorem processMessage_invokes_only_the_decoded_envelope (this : t)
    (stream id : string) (fields : list string) (w : World) (e : EventEnvelope) :
  Invoke e ∈ effects (processMessage this stream id fields) w ->
  truthy (envelopeData fields) = true
  /\ decode fields = Normal e
  /\ is_Some (Map_get (handlers this) (eventType e)).
Proof.
  intros H.
  destruct (truthy (envelopeData fields)) eqn:T.
  - destruct (decode fields) as [envelope|err] eqn:D.
    + destruct (has_primitive_value (eventType envelope)) eqn:S.
      * pose proof (dispatched_effects this stream id fields w envelope T D S) as E.
        cbv zeta in E.
        destruct (Map_get (handlers this) (eventType envelope)) as [handler|] eqn:G.
        -- assert (X : e = envelope).
           { destruct (handler envelope) as [[]|e'].
             - destruct E as [_ E]. rewrite E in H. from_events H.
             - destruct E as [_ E]. destruct (get_prop e' "message");
                 destruct E as [_ E]; rewrite E in H; from_events H. }
           subst e. rewrite G. split; [reflexivity|].
           split; [reflexivity | by eexists].
        -- exfalso. destruct E as [_ E]. rewrite E in H. from_events H.
      * exfalso.
        destruct (unnamed_effects this stream id fields w envelope T D S)
          as (_ & E & _).
        rewrite E in H. from_events H.
    + exfalso.
      destruct (decode_failed_effects this stream id fields w err T D) as [_ E].
      destruct (get_prop err "message"); destruct E as [_ E]; rewrite E in H;
        from_events H.
  - exfalso. destruct (no_envelope_effects this stream id fields w T) as [_ E].
    rewrite E in H. from_events H.
Qed.

Lemma normalize_primitive (raw : JsValue) :
  has_no_properties raw = true -> normalize raw = Normal (either_dialect ∅).
Proof. destruct raw; try discriminate; reflexivity. Qed.

(** X8. A payload that parses to a boolean, a number, a string or an array
    decodes to the envelope of [undefined] fields; no handler is invoked and
    the message is acknowledged. *)
Theorem payload_without_properties_is_acknowledged (this : t) (stream id : string)
    (fields : list string) (w : World) (raw : JsValue) :
  truthy (envelopeData fields) = true ->
  JSON_parse (to_string (envelopeData fields)) = Normal raw ->
  has_no_properties raw = true ->
  let m := processMessage this stream id fields in
  decode fields = Normal (either_dialect ∅)
  /\ (m w).1 = Normal tt
  /\ invokes_no_handler m w
  /\ acknowledges m stream (consumerGroup this) id w.
Proof.
  intros T P N m. subst m.
  assert (D : decode fields = Normal (either_dialect ∅)).
  { unfold decode. rewrite P. by apply normalize_primitive. }
  split; [exact D|].
  pose proof (dispatched_effects this stream id fields w _ T D eq_refl) as E.
  pose proof (dispatched_broker this stream id fields w _ T D eq_refl) as B.
  cbv zeta in E. change (Map_get (handlers this) (eventType (either_dialect ∅)))
    with (@None EventHandler) in E, B.
  destruct E as [R E]. split; [exact R|].
  unfold invokes_no_handler, acknowledges. rewrite E. split.
  - intros e. unfold consumer_span_events, ack_failure, failure_log.
    destruct (fault (broker w)); not_in.
  - split; [apply list_elem_of_In, in_or_app; right; simpl; auto|].
    intros F. by apply B.
Qed.

(** X9. The payload [null] parses, but reading [eventId] off it throws: the
    [TypeError] is logged and the message is left unacknowledged. *)
Theorem null_payload_is_left_pending (this : t) (stream id : string)
    (fields : list string) (w : World) :
  truthy (envelopeData fields) = true ->
  JSON_parse (to_string (envelopeData fields)) = Normal JNull ->
  let m := processMessage this stream id fields in
  (m w).1 = Normal tt
  /\ effects m w
     = [failure_log stream id
          (JStr "Cannot read properties of null (reading 'eventId')")]
  /\ leaves_unacknowledged m stream (consumerGroup this) id w.
Proof.
  intros T P m. subst m.
  assert (D : decode fields
              = Throw (TypeError "Cannot read properties of null (reading 'eventId')")).
  { unfold decode. rewrite P. reflexivity. }
  destruct (decode_failed_effects this stream id fields w _ T D) as [B [R E]].
  split; [exact R|]. split; [exact E|].
  unfold leaves_unacknowledged. rewrite E. split; [|exact B].
  unfold failure_log. not_in.
Qed.

Lemma parse_fields_app (fields rest : list string) :
  Nat.even (length fields) = true ->
  forall acc : gmap string JsValue,
    parse_fields (fields ++ rest) acc = parse_fields rest (parse_fields fields acc).
Proof.
  induction fields as [|a|a b l IH] using list_pair_ind; intros E acc.
  - reflexivity.
  - discriminate E.
  - cbn [app parse_fields]. apply IH. exact E.
Qed.

(** X10. When a key occurs more than once in the field list, its last value
    is the one the consumer reads. *)
Theorem last_field_wins (fields : list string) (k v : string) :
  Nat.even (length fields) = true ->
  k <> "__proto__" ->
  parse_fields (fields ++ [k; v]) ∅ !! k = Some (JStr v).
Proof.
  intros E K. rewrite parse_fields_app by exact E. cbn [parse_fields].
  apply String.eqb_neq in K. rewrite K. apply lookup_insert_eq.
Qed.

End message_more.

(** ** The polling loop *)

Section loop_more.
Context {rt : Runtime}.
Import RedisStreamsConsumer.

(** X12. A handler that throws [undefined] or [null] ends the batch: the
    [TypeError] of reading its [message] leaves [processMessage], the
    messages that follow in the batch are not processed, and the [catch]
    block of the loop takes the error. *)
Theorem thrown_undefined_aborts_the_batch (this : t) (stream id : string)
    (fields : list string) (rest : list (string * list string)) (w : World)
    (envelope : EventEnvelope) (handler : EventHandler) (e t : JsValue) :
  truthy (envelopeData fields) = true ->
  decode fields = Normal envelope ->
  Map_get (handlers this) (eventType envelope) = Some handler ->
  handler envelope = Throw e ->
  get_prop e "message" = Throw t ->
  let m := process_messages this stream ((id, fields) :: rest) in
  let span := tracing.span_in w (consumer_parent w envelope) in
  (m w).1 = Throw t
  /\ effects m w
     = consumer_span_events span (consumer_parent w envelope) envelope
       ++ [Invoke envelope; SpanRecordException span e; SpanEnd span]
  /\ broker (m w).2 = broker w
  /\ (consume_failed t (m w).2).1 = Normal tt.
Proof.
  intros T D G H M m span. subst m span.
  pose proof (dispatched_effects this stream id fields w envelope T D
                (registered_is_string _ _ _ G)) as E.
  cbv zeta in E. rewrite G, H, M in E. destruct E as (B & R & E).
  unfold effects in *. cbn [process_messages]. cbv beta delta [mbind M_bind].
  destruct (processMessage this stream id fields w) as [r w1].
  cbn [fst snd] in *. subst r. cbn [fst snd].
  repeat split; try assumption.
  destruct e; try discriminate M; inversion M; subst t; by destruct w1.
Qed.

Lemma processMessage_errors (this : t) (stream id : string)
    (fields : list string) (w : World) :
  throws_only_errors (processMessage this stream id fields w).1.
Proof.
  assert (H : match (processMessage this stream id fields w).1 with
              | Normal _ => True
              | Throw e =>
                  e = TypeError "Cannot read properties of undefined (reading 'message')"
                  \/ e = TypeError "Cannot read properties of null (reading 'message')"
              end).
  { unfold processMessage. apply catch_and_log. intros message w'. by exists tt. }
  destruct ((processMessage this stream id fields w).1); [exact I|].
  destruct H as [-> | ->]; unfold TypeError; by do 2 eexists.
Qed.

Lemma process_messages_errors (this : t) (stream : string)
    (messages : list (string * list string)) (w : World) :
  throws_only_errors (process_messages this stream messages w).1.
Proof.
  revert w. induction messages as [|[id fields] rest IH]; intros w; [exact I|].
  cbn [process_messages]. cbv beta delta [mbind M_bind].
  pose proof (processMessage_errors this stream id fields w) as H.
  destruct (processMessage this stream id fields w) as [[[]|e] w1]; [apply IH | exact H].
Qed.

Lemma process_results_errors (this : t)
    (results : list (string * list (string * list string))) (w : World) :
  throws_only_errors (process_results this results w).1.
Proof.
  revert w. induction results as [|[stream messages] rest IH]; intros w; [exact I|].
  cbn [process_results]. cbv beta delta [mbind M_bind].
  pose proof (process_messages_errors this stream messages w) as H.
  destruct (process_messages this stream messages w) as [[[]|e] w1]; [apply IH | exact H].
Qed.

Lemma xreadgroup_errors (group consumer : string) (streams : list string) (w : World) :
  throws_only_errors (client.xreadgroup group consumer streams w).1.
Proof.
  world w. unfold client.xreadgroup. run.
  destruct flt as [message|]; [by do 2 eexists|].
  destruct (forallb _ streams); [|by do 2 eexists].
  by destruct (omap _ streams).
Qed.

Lemma consume_failed_completes (e : JsValue) (w : World) :
  is_Error e -> (consume_failed e w).1 = Normal tt.
Proof. intros (name & message & ->). world w. reflexivity. Qed.

(** A turn of the loop never throws: an error of the read, of a handler or
    of the processing of a message ends in the [catch] block, which logs it
    and waits. *)
Lemma poll_completes (this : t) (w : World) :
  (poll this w).1 = Normal tt.
Proof.
  unfold poll, try_catch. cbv beta delta [mbind M_bind].
  pose proof (xreadgroup_errors (consumerGroup this) (consumerName this)
                (streams this) w) as X.
  destruct (client.xreadgroup _ _ _ w) as [[results|e] w1]; cbn [fst] in X.
  - destruct results as [rs|]; [|reflexivity].
    pose proof (process_results_errors this rs w1) as R.
    destruct (process_results this rs w1) as [[[]|e] w2]; [reflexivity|].
    by apply consume_failed_completes.
  - by apply consume_failed_completes.
Qed.

Lemma consume_loop_never_throws (turns : nat) (this : t) (w : World) :
  (consume_loop turns this w).1 = Normal tt.
Proof.
  revert w. induction turns as [|n IH]; intros w; [reflexivity|].
  cbn [consume_loop]. destruct (running this); [|reflexivity].
  cbv beta delta [mbind M_bind].
  pose proof (poll_completes this w) as P.
  destruct (poll this w) as [[[]|e] w1]; [apply IH | discriminate P].
Qed.

(** X13. [startConsuming] never throws, however many turns its loop takes:
    an error of the read, and whatever a handler throws, end in a [catch]
    block, so no error of the broker or of a handler ends the loop. *)
Theorem startConsuming_never_throws (turns : nat) (this : t) (w : World) :
  (startConsuming turns this w).1 = Normal tt.
Proof.
  unfold startConsuming. cbv beta delta [mbind M_bind].
  destruct (logger.info _ _ w) as [[[]|e] w1] eqn:L.
  - apply consume_loop_never_throws.
  - world w. discriminate L.
Qed.

Lemma poll_fault (this : t) (w : World) (message : string) :
  fault (broker w) = Some message ->
  poll this w
  = (Normal tt,
     set_clock (clock w + 5000)%N (set_trace (trace w ++ failed_turn this message) w)).
Proof.
  intros F. world w. cbn in F. subst flt.
  unfold poll, failed_turn, client.xreadgroup. run.
  rewrite <- !app_assoc. reflexivity.
Qed.

(** X14. While the broker cannot be reached, every turn of the loop sends the
    read, logs the error and waits 5000 ms: after [turns] turns the clock has
    advanced by 5000 ms each and the broker is as it was. *)
Theorem loop_backs_off_while_broker_is_down (turns : nat) (this : t) (w : World)
    (message : string) :
  running this = true ->
  fault (broker w) = Some message ->
  let m := consume_loop turns this in
  (m w).1 = Normal tt
  /\ effects m w = concat (replicate turns (failed_turn this message))
  /\ clock (m w).2 = (clock w + 5000 * N.of_nat turns)%N
  /\ broker (m w).2 = broker w.
Proof.
  intros R F m. subst m. unfold effects.
  assert (H : forall n w0, fault (broker w0) = Some message ->
            consume_loop n this w0
            = (Normal tt,
               set_clock (clock w0 + 5000 * N.of_nat n)%N
                 (set_trace (trace w0 ++ concat (replicate n (failed_turn this message)))
                    w0))).
  { induction n as [|n IH]; intros w0 F0.
    - destruct w0 as [tr b act tcr prp nsp en clk drw]. cbn.
      rewrite app_nil_r, N.add_0_r. reflexivity.
    - cbn [consume_loop]. rewrite R. cbv beta delta [mbind M_bind].
      rewrite (poll_fault this w0 message F0).
      rewrite IH by (destruct w0; exact F0).
      destruct w0 as [tr b act tcr prp nsp en clk drw]. unfold set_clock, set_trace.
      cbn [trace broker active tracer next_span env clock drawn].
      rewrite <- app_assoc.
      replace (clk + 5000 + 5000 * N.of_nat n)%N
        with (clk + 5000 * N.of_nat (S n))%N by lia.
      reflexivity. }
  rewrite (H turns w F). destruct w as [tr b act tcr prp nsp en clk drw]; cbn.
  repeat split. unfold events_since. cbn. apply drop_app_length.
Qed.

(** X15. [stop] clears the running flag whether or not [quit] succeeds, so a
    loop on the stopped consumer takes no further turn; the line
    [Event consumer stopped] is logged only if [quit] succeeds, and the error
    of [quit] reaches the caller. *)
Theorem stop_ends_the_loop (this : t) (w : World) :
  let '(r, this', w') := stop this w in
  running this' = false
  /\ (forall turns w0, consume_loop turns this' w0 = (Normal tt, w0))
  /\ match fault (broker w) with
     | None =>
         r = Normal tt
         /\ events_since w w'
            = [Cmd QUIT;
               Log LInfo "Event consumer stopped" (obj [("service", JStr (serviceName this))])]
     | Some message =>
         r = Throw (Error_ "Error" message) /\ events_since w w' = [Cmd QUIT]
     end.
Proof.
  world w. destruct this as [sn cg cn hs rn ss]. unfold stop.
  cbv beta iota zeta delta [set_running serviceName consumerGroup consumerName handlers running streams].
  destruct flt as [message|]; run.
  - split; [reflexivity|]. split; [intros [|n] w0; reflexivity|].
    split; [reflexivity | appended].
  - split; [reflexivity|]. split; [intros [|n] w0; reflexivity|].
    split; [reflexivity | appended].
Qed.

End loop_more.

(** ** More on subscribing *)

Section subscribe_more.
Context {rt : Runtime}.
Import RedisStreamsConsumer.

Lemma Set_add_NoDup (x : string) (l : list string) :
  NoDup l -> NoDup (Set_add x l).
Proof.
  intros N. unfold Set_add. destruct (bool_decide (x ∈ l)) eqn:E; [exact N|].
  apply bool_decide_eq_false in E. apply NoDup_app. split; [exact N|]. split.
  - intros y Hy ->%list_elem_of_singleton. by apply E.
  - apply NoDup_singleton.
Qed.

Lemma Set_add_keeps (x y : string) (l : list string) : y ∈ l -> y ∈ Set_add x l.
Proof.
  intros H. unfold Set_add. destruct (bool_decide (x ∈ l)); [exact H|].
  apply elem_of_app. by left.
Qed.

(** X16. [subscribe] leaves the other subscriptions alone: the handlers of the
    other event types and the streams subscribed before stay, no stream is
    listed twice, the group and the consumer name are kept, and a consumer
    that is running is not started again. *)
Theorem subscribe_keeps_other_subscriptions (this : t) (eventType : string)
    (handler : EventHandler) (w : World) :
  let '(_, this', w') := subscribe this eventType handler w in
  (forall other, other <> eventType -> handlers this' !! other = handlers this !! other)
  /\ (forall stream, stream ∈ streams this -> stream ∈ streams this')
  /\ (NoDup (streams this) -> NoDup (streams this'))
  /\ consumerGroup this' = consumerGroup this
  /\ consumerName this' = consumerName this
  /\ (running this = true ->
      forall lvl meta, Log lvl "Starting event consumption" meta ∉ events_since w w').
Proof.
  rewrite subscribe_run. set (w' := set_broker _ _).
  assert (E : events_since w w'
              = creation_events this (getStreamName eventType) (broker w)
                ++ start_events this eventType handler).
  { apply events_since_app. subst w'. by destruct w. }
  rewrite E. clear E w'.
  destruct this as [sn cg cn hs rn ss]; cbn.
  split; [intros other N; by rewrite lookup_insert_ne|].
  split; [intros stream; apply Set_add_keeps|].
  split; [apply Set_add_NoDup|].
  split; [reflexivity|]. split; [reflexivity|].
  intros R lvl meta. subst rn. unfold creation_events, start_events. cbn.
  destruct (fault (broker w)) as [message|];
    [destruct (String_includes "BUSYGROUP" message)
    | destruct (client.has_group _ _ _)];
    absent.
Qed.

Lemma subscribe_world (this : t) (eventType : string) (handler : EventHandler)
    (w : World) :
  let stream := getStreamName eventType in
  let w' := (subscribe this eventType handler w).2 in
  (subscribe this eventType handler w).1
  = (Normal tt, subscribed this eventType handler)
  /\ groups (broker w') = groups_after this stream (broker w)
  /\ fault (broker w') = fault (broker w)
  /\ events_since w w'
     = creation_events this stream (broker w) ++ start_events this eventType handler.
Proof.
  cbv zeta. rewrite subscribe_run. destruct w as [tr [? ? ? ? ?] act tcr prp nsp en clk drw].
  repeat split. apply events_since_app. reflexivity.
Qed.

(** X17. Subscribing twice to an event type, with a broker that is reached:
    the second handler replaces the first, the stream is not added again, the
    group exists once the first call returns and the second call leaves the
    groups as they are; all the second call appends is the command whose
    [BUSYGROUP] answer it swallows. *)
Theorem subscribing_again_replaces_the_handler (this : t) (eventType : string)
    (first second : EventHandler) (w : World) :
  fault (broker w) = None ->
  let stream := getStreamName eventType in
  let '(_, this1, w1) := subscribe this eventType first w in
  let '(r, this2, w2) := subscribe this1 eventType second w1 in
  r = Normal tt
  /\ handlers this2 !! eventType = Some second
  /\ streams this2 = streams this1
  /\ groups (broker w2) = groups (broker w1)
  /\ (stream, consumerGroup this) ∈ groups (broker w2)
  /\ events_since w1 w2 = [Cmd (XGROUP_CREATE stream (consumerGroup this))].
Proof.
  intros F stream.
  destruct (subscribe_world this eventType first w) as (S1 & G1 & F1 & _).
  destruct (subscribe this eventType first w) as [[r1 this1] w1].
  cbn [fst snd] in *. inversion S1; subst r1 this1. clear S1.
  destruct (subscribe_world (subscribed this eventType first) eventType second w1)
    as (S2 & G2 & _ & E2).
  destruct (subscribe _ eventType second w1) as [[r2 this2] w2].
  cbn [fst snd] in *. inversion S2; subst r2 this2. clear S2.
  fold stream in G1, G2, E2. rewrite F in F1.
  assert (C : consumerGroup (subscribed this eventType first) = consumerGroup this)
    by (by destruct this).
  assert (In1 : (stream, consumerGroup this) ∈ groups (broker w1)).
  { rewrite G1. unfold groups_after. rewrite F. unfold client.has_group.
    destruct (bool_decide _) eqn:E.
    - by apply bool_decide_eq_true in E.
    - apply elem_of_app. right. by left. }
  assert (H1 : client.has_group stream (consumerGroup this) (broker w1) = true)
    by (by apply bool_decide_eq_true).
  assert (G : groups (broker w2) = groups (broker w1)).
  { rewrite G2. unfold groups_after. by rewrite F1, C, H1. }
  split; [reflexivity|].
  split; [destruct this; cbn; apply lookup_insert_eq|].
  split.
  { destruct this as [sn cg cn hs rn ss]. cbn.
    unfold Set_add at 1. rewrite bool_decide_eq_true_2; [reflexivity|].
    apply elem_of_Set_add. }
  split; [exact G|]. split; [by rewrite G|].
  rewrite E2. unfold creation_events, start_events. rewrite F1, C, H1.
  by destruct this.
Qed.

End subscribe_more.

(** ** More on stream names *)

Section names_more.
Import reference.

(** X18. The stream of an event type is decided by what precedes its first
    dot: the consumer reads [events:] followed by that domain, the publisher
    writes to its prefix, the domain and an [s]. An event type without a dot
    is its own domain; it is not rejected. *)
Theorem stream_name_is_the_domain (domain rest : string) :
  free_of "." domain = true ->
  RedisStreamsConsumer.getStreamName (domain +:+ "." +:+ rest) = "events:" +:+ domain
  /\ RedisStreamsConsumer.getStreamName domain = "events:" +:+ domain
  /\ forall service prefix,
       EventPublisher.getStreamName (EventPublisher.new service (Some prefix))
         (domain +:+ "." +:+ rest)
       = prefix +:+ ":" +:+ domain +:+ "s".
Proof.
  intros F. unfold RedisStreamsConsumer.getStreamName, EventPublisher.getStreamName.
  change (domain +:+ "." +:+ rest) with (domain +:+ String "." rest).
  rewrite (split_free "." domain rest F), (split_free_end "." domain F).
  repeat split.
Qed.

End names_more.

(** ** More on publishing *)

Section publish_more.
Context {rt : Runtime}.

(** X19. When the broker rejects the append, [publish] throws the error of
    the broker: the producer span records it and is ended, nothing is logged
    as published, and the broker and the active context are as before. *)
Theorem publish_fails_with_the_broker (this : EventPublisher.t) (eventType : string)
    (data : JsValue) (options : option EventPublisher.PublishOptions) (w : World)
    (message : string) :
  fault (broker w) = Some message ->
  let m := EventPublisher.publish this eventType data options in
  let envelope := EventPublisher.published_envelope this eventType data options w in
  (m w).1 = Throw (Error_ "Error" message)
  /\ effects m w
     = EventPublisher.failed_publish_events this eventType envelope (Error_ "Error" message) w
  /\ broker (m w).2 = broker w
  /\ active (m w).2 = active w.
Proof.
  intros F m envelope. subst m envelope. world w. cbn in F. subst flt.
  unfold effects, EventPublisher.failed_publish_events, EventPublisher.published_envelope.
  cbv beta iota zeta delta
    [EventPublisher.publish events.createEventEnvelope events.uuid events.now_iso
     EventPublisher.spread events.opt events.o_correlationId events.o_causationId
     events.o_traceContext events.o_metadata].
  destruct tcr; run; (split; [reflexivity | split; [appended | split; reflexivity]]).
Qed.

Lemma json_image_carrier (c : gmap string string) :
  json_image (JObj (JStr <$> c)) = JObj (JStr <$> c).
Proof.
  cbn [json_image]. f_equal. apply map_eq. intros k.
  rewrite lookup_omap, lookup_fmap. by destruct (c !! k).
Qed.

Lemma envelopeData_payload (payload : string) :
  RedisStreamsConsumer.envelopeData ["payload"; payload] = JStr payload.
Proof.
  unfold RedisStreamsConsumer.envelopeData.
  cbn [RedisStreamsConsumer.parse_fields].
  change (String.eqb "payload" "__proto__") with false. cbn iota.
  rewrite lookup_insert_ne by discriminate. rewrite lookup_empty, lookup_insert_eq.
  reflexivity.
Qed.

(** X20. What [publish] appends, the consumer decodes to the envelope
    [publish] built: for an event type and a uuid that are not empty, ids in
    the options that are not empty strings, and a payload and metadata JSON
    carries unchanged, the last entry of the broker is on the publisher's
    stream, under the id [publish] returns, and its fields decode to the
    envelope. The platform is assumed to carry the envelope object through
    [JSON.stringify] and [JSON.parse] as JSON does. *)
Theorem published_entry_decodes_to_the_envelope (this : EventPublisher.t)
    (eventType : string) (data : JsValue)
    (options : option EventPublisher.PublishOptions) (w : World) :
  let envelope := EventPublisher.published_envelope this eventType data options w in
  let payload := JSON_stringify (envelope_object envelope) in
  fault (broker w) = None ->
  is_empty eventType = false ->
  is_empty (uuidv4 (drawn w)) = false ->
  (o ← options; EventPublisher.opt_correlationId o) <> Some "" ->
  (o ← options; EventPublisher.opt_causationId o) <> Some "" ->
  json_image data = data ->
  json_image (metadata envelope) = metadata envelope ->
  is_empty payload = false ->
  JSON_parse payload = Normal (json_image (envelope_object envelope)) ->
  exists fields,
    last (entries (broker (EventPublisher.publish this eventType data options w).2))
    = Some (EventPublisher.getStreamName this eventType, EventPublisher.next_id w, fields)
    /\ RedisStreamsConsumer.decode fields = Normal envelope.
Proof.
  intros envelope payload F T U C1 C2 D M S P.
  destruct (publish_run this eventType data options w F) as (_ & _ & E).
  fold envelope in E. exists ["data"; payload]. split.
  - rewrite E. apply last_snoc.
  - unfold RedisStreamsConsumer.decode.
    rewrite (envelopeData_data _ S). cbn [to_string]. rewrite P.
    cbn [mbind Completion_bind]. apply normalize_json_image; [| |by left].
    + subst envelope. unfold EventPublisher.published_envelope in *.
      constructor; cbn in *; try reflexivity; try assumption.
      * by destruct (o ← options; EventPublisher.opt_correlationId o).
      * by destruct (o ← options; EventPublisher.opt_causationId o).
      * by destruct (o ← options; EventPublisher.opt_metadata o).
      * apply json_image_carrier.
    + subst envelope. unfold EventPublisher.published_envelope.
      constructor; cbn.
      * by rewrite U.
      * by rewrite T.
      * destruct (o ← options; EventPublisher.opt_correlationId o) as [[|a s]|];
          [congruence | by right | by left].
      * destruct (o ← options; EventPublisher.opt_causationId o) as [[|a s]|];
          [congruence | by right | by left].
Qed.

(** X21. The plain client appends the envelope under the field [payload],
    outside any span, and returns the id of the entry; the consumer decodes
    the fields of that entry to the envelope, under the assumptions of the
    round trip. *)
Theorem plain_client_entry_decodes_to_the_envelope (stream : string)
    (e : EventEnvelope) (w : World) :
  let payload := JSON_stringify (envelope_object e) in
  let m := RedisStreamsClient.publish stream e in
  fault (broker w) = None ->
  valid_envelope e ->
  nonempty_ids e ->
  JSON_parse payload = Normal (json_image (envelope_object e)) ->
  (m w).1 = Normal (EventPublisher.next_id w)
  /\ effects m w = [Cmd (XADD stream ["payload"; payload])]
  /\ last (entries (broker (m w).2))
     = Some (stream, EventPublisher.next_id w, ["payload"; payload])
  /\ RedisStreamsConsumer.decode ["payload"; payload] = Normal e.
Proof.
  intros payload m F V N P. subst m.
  split; [|split; [|split]].
  - world w. cbn in F. subst flt. unfold RedisStreamsClient.publish. run.
    by rewrite or_str_self.
  - world w. cbn in F. subst flt. unfold RedisStreamsClient.publish, effects. run.
    appended.
  - world w. cbn in F. subst flt. unfold RedisStreamsClient.publish. run.
    apply last_snoc.
  - unfold RedisStreamsConsumer.decode.
    rewrite envelopeData_payload. cbn [to_string]. rewrite P.
    cbn [mbind Completion_bind]. apply normalize_json_image; auto.
Qed.

End publish_more.

(** ** A turn of the loop that delivers *)

Section delivery.
Context {rt : Runtime}.
Import RedisStreamsConsumer.

Lemma take_singleton {A} (n : nat) (l : list A) (x : A) :
  take (S (S n)) l = [x] -> l = [x].
Proof.
  destruct l as [|a [|b l]]; cbn; intros H; try congruence.
Qed.

Lemma take_empty {A} (n : nat) (l : list A) : take (S n) l = [] -> l = [].
Proof. destruct l; cbn; congruence. Qed.

Lemma xreadgroup_one (group consumer stream id : string) (fields : list string)
    (w : World) :
  fault (broker w) = None ->
  (stream, group) ∈ groups (broker w) ->
  client.new_entries 10 stream group (broker w) = [(id, fields)] ->
  client.xreadgroup group consumer [stream] w
  = (Normal (Some [(stream, [(id, fields)])]),
     set_broker
       (client.set_pending (pending (broker w) ++ [(stream, group, id)]) (broker w))
       (set_trace (trace w ++ [Cmd (XREADGROUP group consumer [stream])]) w)).
Proof.
  intros F G N. world w. cbn in F, G. cbn [broker] in N. subst flt.
  unfold client.xreadgroup. run. cbn [forallb omap list_omap andb].
  rewrite (bool_decide_eq_true_2 _ G). cbn [andb]. rewrite N.
  reflexivity.
Qed.

Lemma processMessage_handled (this : t) (stream id : string)
    (fields : list string) (w : World) (envelope : EventEnvelope)
    (handler : EventHandler) :
  truthy (envelopeData fields) = true ->
  decode fields = Normal envelope ->
  fault (broker w) = None ->
  Map_get (handlers this) (eventType envelope) = Some handler ->
  handler envelope = Normal tt ->
  (stream, consumerGroup this, id) ∈ pending (broker w) ->
  let p := (stream, consumerGroup this, id) in
  let m := processMessage this stream id fields in
  let parent := consumer_parent w envelope in
  let span := tracing.span_in w parent in
  (m w).1 = Normal tt
  /\ trace (m w).2
     = trace w ++ consumer_span_events span parent envelope
       ++ [Invoke envelope;
           Log LDebug "Event processed"
             (obj [("eventType", eventType envelope); ("eventId", eventId envelope)]);
           SpanEnd span;
           Cmd (XACK stream (consumerGroup this) id)]
  /\ broker (m w).2
     = client.set_acked (acked (broker w) ++ [p])
         (client.set_pending (filter (fun q => q ≠ p) (pending (broker w))) (broker w)).
Proof.
  intros T D F G H P p m parent span. subst p m span parent.
  unfold consumer_parent.
  cbv beta zeta delta [processMessage]; unfold try_catch at 1;
    rewrite T; cbn [negb];
    cbv beta delta [decode mbind Completion_bind] in D;
    cbv beta delta [mbind M_bind lift];
    destruct (JSON_parse _) as [raw|]; [|discriminate D];
    rewrite D. unfold parent_of, consumer_span_events, ToString.
  rewrite (registered_is_string _ _ _ G).
  world w. cbn in F, P. subst flt. rewrite G.
  destruct (truthy (traceContext envelope)), tcr; run; rewrite ?H; run;
    rewrite (bool_decide_eq_true_2 _ P); cbn [fst snd trace broker];
    repeat split; rewrite <- ?app_assoc; reflexivity.
Qed.

Lemma filter_absent (p : string * string * string) (l : list (string * string * string)) :
  p ∉ l -> filter (fun q => q ≠ p) l = l.
Proof.
  induction l as [|a l IH]; [reflexivity|].
  intros H. apply not_elem_of_cons in H as [H1 H2].
  rewrite filter_cons. destruct (decide (a ≠ p)) as [_|N].
  - by rewrite IH.
  - destruct N. congruence.
Qed.

Lemma waiting_is_fresh (n : nat) (stream group id : string) (fields : list string)
    (b : Broker) :
  (id, fields) ∈ client.new_entries n stream group b ->
  ((stream, group, id) ∉ pending b) /\ ((stream, group, id) ∉ acked b).
Proof.
  unfold client.new_entries. intros H. apply (subseteq_take _ _ _) in H.
  apply list_elem_of_omap in H as ([[s i] f] & _ & H).
  destruct (bool_decide (s = stream)) eqn:S; [|discriminate H].
  destruct (bool_decide ((s, group, i) ∈ pending b)) eqn:P; [discriminate H|].
  destruct (bool_decide ((s, group, i) ∈ acked b)) eqn:A; [discriminate H|].
  cbn in H. inversion H; subst i f.
  apply bool_decide_eq_true in S. subst s.
  apply bool_decide_eq_false in P, A. by split.
Qed.

Lemma nothing_waits_after_ack (stream group id : string) (fields : list string)
    (b b' : Broker) :
  client.new_entries 10 stream group b = [(id, fields)] ->
  entries b' = entries b ->
  pending b' = pending b ->
  acked b' = acked b ++ [(stream, group, id)] ->
  client.new_entries 10 stream group b' = [].
Proof.
  unfold client.new_entries. intros N E P A. apply take_singleton in N.
  rewrite E, P, A.
  match goal with |- take _ ?l = _ => destruct l as [|x r] eqn:O end; [reflexivity|].
  exfalso.
  assert (I : x ∈ x :: r) by left. rewrite <- O in I.
  apply list_elem_of_omap in I as ([[s i] f] & I & H).
  destruct (bool_decide (s = stream)) eqn:S; [|discriminate H].
  destruct (bool_decide ((s, group, i) ∈ pending b)) eqn:Q; [discriminate H|].
  destruct (bool_decide ((s, group, i) ∈ acked b ++ _)) eqn:K; [discriminate H|].
  apply bool_decide_eq_false in K. apply K.
  apply elem_of_app. destruct (bool_decide ((s, group, i) ∈ acked b)) eqn:K'.
  - left. by apply bool_decide_eq_true in K'.
  - right. assert (J : (i, f) ∈ [(id, fields)]).
    { rewrite <- N. apply list_elem_of_omap. exists (s, i, f). split; [exact I|].
      cbn. by rewrite S, Q, K'. }
    apply list_elem_of_singleton in J. inversion J; subst.
    apply bool_decide_eq_true in S. subst. left.
Qed.

Lemma poll_handled (this : t) (stream id : string)
    (fields : list string) (w : World) (envelope : EventEnvelope)
    (handler : EventHandler) :
  fault (broker w) = None ->
  streams this = [stream] ->
  (stream, consumerGroup this) ∈ groups (broker w) ->
  client.new_entries 10 stream (consumerGroup this) (broker w) = [(id, fields)] ->
  truthy (envelopeData fields) = true ->
  decode fields = Normal envelope ->
  Map_get (handlers this) (eventType envelope) = Some handler ->
  handler envelope = Normal tt ->
  let parent := consumer_parent w envelope in
  let span := tracing.span_in w parent in
  (poll this w).1 = Normal tt
  /\ trace (poll this w).2
     = trace w
       ++ Cmd (XREADGROUP (consumerGroup this) (consumerName this) [stream])
       :: consumer_span_events span parent envelope
       ++ [Invoke envelope;
           Log LDebug "Event processed"
             (obj [("eventType", eventType envelope); ("eventId", eventId envelope)]);
           SpanEnd span;
           Cmd (XACK stream (consumerGroup this) id)]
  /\ pending (broker (poll this w).2) = pending (broker w)
  /\ acked (broker (poll this w).2)
     = acked (broker w) ++ [(stream, consumerGroup this, id)]
  /\ client.new_entries 10 stream (consumerGroup this) (broker (poll this w).2) = [].
Proof.
  intros F S G N T D H C parent span. subst span parent.
  assert (Fr : (stream, consumerGroup this, id) ∉ pending (broker w)).
  { apply (waiting_is_fresh 10 _ _ _ fields). rewrite N. left. }
  pose proof (xreadgroup_one (consumerGroup this) (consumerName this) stream id
                fields w F G N) as R.
  set (w1 := set_broker _ _) in R.
  assert (F1 : fault (broker w1) = None) by (subst w1; by destruct w as [? []]).
  assert (P1 : (stream, consumerGroup this, id) ∈ pending (broker w1)).
  { subst w1. destruct w as [? []]. cbn. apply elem_of_app. right. left. }
  destruct (processMessage_handled this stream id fields w1 envelope handler
              T D F1 H C P1) as (R1 & T1 & B1).
  assert (E : poll this w = (Normal tt, (processMessage this stream id fields w1).2)).
  { unfold poll, try_catch. cbv beta delta [mbind M_bind]. rewrite S, R.
    cbn [process_results process_messages]. cbv beta delta [mbind M_bind mret M_ret].
    destruct (processMessage this stream id fields w1) as [r w2].
    cbn [fst snd] in *. by subst r. }
  rewrite E. cbn [fst snd].
  split; [reflexivity|]. split.
  - rewrite T1. subst w1. destruct w as [tr b act tcr prp nsp en clk drw].
    cbn [trace set_trace set_broker]. by rewrite <- app_assoc.
  - assert (Pd : pending (broker (processMessage this stream id fields w1).2)
                 = pending (broker w)).
    { rewrite B1. subst w1. destruct w as [? []]. cbn.
      rewrite filter_app, filter_absent by exact Fr.
      rewrite filter_cons. destruct (decide _) as [X|_]; [by destruct X|].
      by rewrite app_nil_r. }
    assert (Ad : acked (broker (processMessage this stream id fields w1).2)
                 = acked (broker w) ++ [(stream, consumerGroup this, id)]).
    { rewrite B1. subst w1. by destruct w as [? []]. }
    split; [exact Pd|]. split; [exact Ad|].
    apply (nothing_waits_after_ack stream _ id fields (broker w)); try assumption.
    rewrite B1. subst w1. by destruct w as [? []].
Qed.

(** X22. A turn of the loop that finds one entry waiting on its stream, whose
    payload decodes to an envelope with a handler that completes: the entry
    is read, the handler is invoked with the envelope inside the consumer
    span, the entry is acknowledged, and afterwards it is neither pending nor
    waiting, so no later turn delivers it again. *)
Theorem poll_delivers_the_waiting_entry (this : t) (stream id : string)
    (fields : list string) (w : World) (envelope : EventEnvelope)
    (handler : EventHandler) :
  fault (broker w) = None ->
  streams this = [stream] ->
  (stream, consumerGroup this) ∈ groups (broker w) ->
  client.new_entries 10 stream (consumerGroup this) (broker w) = [(id, fields)] ->
  truthy (envelopeData fields) = true ->
  decode fields = Normal envelope ->
  Map_get (handlers this) (eventType envelope) = Some handler ->
  handler envelope = Normal tt ->
  let m := poll this in
  let parent := consumer_parent w envelope in
  let span := tracing.span_in w parent in
  (m w).1 = Normal tt
  /\ effects m w
     = Cmd (XREADGROUP (consumerGroup this) (consumerName this) [stream])
       :: consumer_span_events span parent envelope
       ++ [Invoke envelope;
           Log LDebug "Event processed"
             (obj [("eventType", eventType envelope); ("eventId", eventId envelope)]);
           SpanEnd span;
           Cmd (XACK stream (consumerGroup this) id)]
  /\ pending (broker (m w).2) = pending (broker w)
  /\ acked (broker (m w).2) = acked (broker w) ++ [(stream, consumerGroup this, id)]
  /\ client.new_entries 10 stream (consumerGroup this) (broker (m w).2) = [].
Proof.
  intros F S G N T D H C m parent span. subst m span parent.
  destruct (poll_handled this stream id fields w envelope handler F S G N T D H C)
    as (R & Tr & P & A & W).
  split; [exact R|]. split; [|by repeat split].
  unfold effects, events_since. rewrite Tr. apply drop_app_length.
Qed.

Lemma plain_publish_world (stream : string) (e : EventEnvelope) (w : World) :
  fault (broker w) = None ->
  let payload := JSON_stringify (envelope_object e) in
  let id := EventPublisher.next_id w in
  RedisStreamsClient.publish stream e w
  = (Normal id,
     set_broker
       (client.set_entries (entries (broker w) ++ [(stream, id, ["payload"; payload])])
          (broker w))
       (set_trace (trace w ++ [Cmd (XADD stream ["payload"; payload])]) w)).
Proof.
  intros F. world w. cbn in F. subst flt. unfold RedisStreamsClient.publish. run.
  by rewrite or_str_self.
Qed.

(** X23. An envelope the plain client appends to the stream a consumer reads
    reaches its handler on the next turn of the loop: with nothing else
    waiting on the stream and a handler that completes, the handler is
    invoked with the envelope that was published, the entry is acknowledged
    and nothing is left waiting. *)
Theorem published_event_reaches_its_handler (this : t) (stream : string)
    (e : EventEnvelope) (handler : EventHandler) (w : World) :
  let payload := JSON_stringify (envelope_object e) in
  let p := (stream, consumerGroup this, EventPublisher.next_id w) in
  let m := (RedisStreamsClient.publish stream e;; poll this) : M unit in
  fault (broker w) = None ->
  streams this = [stream] ->
  (stream, consumerGroup this) ∈ groups (broker w) ->
  client.new_entries 10 stream (consumerGroup this) (broker w) = [] ->
  p ∉ pending (broker w) ->
  p ∉ acked (broker w) ->
  valid_envelope e ->
  nonempty_ids e ->
  is_empty payload = false ->
  JSON_parse payload = Normal (json_image (envelope_object e)) ->
  Map_get (handlers this) (eventType e) = Some handler ->
  handler e = Normal tt ->
  (m w).1 = Normal tt
  /\ Invoke e ∈ effects m w
  /\ p ∈ acked (broker (m w).2)
  /\ (p ∉ pending (broker (m w).2))
  /\ client.new_entries 10 stream (consumerGroup this) (broker (m w).2) = [].
Proof.
  intros payload p m F S G N Pn An V I Ne P H C. subst m p.
  set (id := EventPublisher.next_id w).
  set (fields := ["payload"; payload]).
  pose proof (plain_publish_world stream e w F) as Pub. cbv zeta in Pub.
  fold payload id fields in Pub. set (w1 := set_broker _ _) in Pub.
  assert (D : decode fields = Normal e).
  { unfold decode. subst fields. rewrite envelopeData_payload. cbn [to_string].
    fold payload. rewrite P. cbn [mbind Completion_bind].
    apply normalize_json_image; auto. }
  assert (T : truthy (envelopeData fields) = true).
  { subst fields. rewrite envelopeData_payload. cbn. by rewrite Ne. }
  assert (F1 : fault (broker w1) = None) by (subst w1; by destruct w as [? []]).
  assert (G1 : (stream, consumerGroup this) ∈ groups (broker w1))
    by (subst w1; by destruct w as [? []]).
  assert (N1 : client.new_entries 10 stream (consumerGroup this) (broker w1)
               = [(id, fields)]).
  { unfold client.new_entries in *. apply take_empty in N.
    subst w1. destruct w as [tr [ents grps pend ackd flt] act tcr prp nsp en clk drw].
    cbn in *. rewrite omap_app, N. cbn.
    rewrite bool_decide_eq_true_2 by reflexivity.
    rewrite (bool_decide_eq_false_2 _ Pn), (bool_decide_eq_false_2 _ An).
    reflexivity. }
  destruct (poll_handled this stream id fields w1 e handler F1 S G1 N1 T D H C)
    as (R & Tr & Pd & Ad & W).
  assert (E : (RedisStreamsClient.publish stream e;; poll this) w = poll this w1).
  { cbv beta delta [mbind M_bind]. by rewrite Pub. }
  unfold effects. rewrite E.
  split; [exact R|]. split; [|split; [|split; [|exact W]]].
  - unfold events_since. rewrite Tr. subst w1.
    destruct w as [tr b act tcr prp nsp en clk drw]. cbn [trace set_trace set_broker].
    rewrite <- app_assoc. rewrite drop_app_length.
    unfold consumer_span_events.
    repeat first [rewrite elem_of_app | rewrite elem_of_cons]. tauto.
  - rewrite Ad. apply elem_of_app. right. left.
  - rewrite Pd. subst w1. by destruct w as [? []].
Qed.

Lemma forallb_fails {A} (f : A -> bool) (l : list A) (x : A) :
  x ∈ l -> f x = false -> forallb f l = false.
Proof.
  intros I H. induction l as [|y l IH]; [by apply elem_of_nil in I|].
  apply elem_of_cons in I as [->|I]; cbn.
  - by rewrite H.
  - rewrite IH by exact I. apply andb_false_r.
Qed.

(** X24. One missing group starves every stream: when the group of one of
    the subscribed streams does not exist, the read of the turn fails as a
    whole, the turn logs the error of the broker and waits 5000 ms, and no
    handler is invoked, whatever waits on the other streams. *)
Theorem missing_group_starves_every_stream (this : t) (stream : string) (w : World) :
  fault (broker w) = None ->
  stream ∈ streams this ->
  (stream, consumerGroup this) ∉ groups (broker w) ->
  let m := poll this in
  (m w).1 = Normal tt
  /\ effects m w = failed_turn this "NOGROUP No such key or consumer group"
  /\ invokes_no_handler m w
  /\ broker (m w).2 = broker w.
Proof.
  intros F S G m. subst m.
  assert (E : poll this w
              = (Normal tt,
                 set_clock (clock w + 5000)%N
                   (set_trace
                      (trace w ++ failed_turn this "NOGROUP No such key or consumer group")
                      w))).
  { world w. cbn in F, G. subst flt.
    unfold poll, failed_turn, client.xreadgroup. run.
    rewrite (forallb_fails _ _ stream S)
      by (by apply bool_decide_eq_false_2).
    unfold client.NOGROUP. run. rewrite lookup_Error_message.
    rewrite <- ?app_assoc. reflexivity. }
  unfold invokes_no_handler, effects. rewrite E. cbn [fst snd].
  assert (Ev : events_since w
                 (set_clock (clock w + 5000)%N
                    (set_trace
                       (trace w ++ failed_turn this "NOGROUP No such key or consumer group")
                       w))
               = failed_turn this "NOGROUP No such key or consumer group").
  { world w. appended. }
  rewrite Ev. split; [reflexivity|]. split; [reflexivity|]. split.
  - intros envelope. unfold failed_turn. absent.
  - by world w.
Qed.

End delivery.

(** ** The further properties on the examples *)

Section further_examples.
Import RedisStreamsConsumer reference.
#[local] Existing Instance reference.runtime.

(** A span is created before [initTracer] is called: the tracer is named from
    the empty environment, and the config given afterwards is ignored. *)
Lemma first_span_fixes_the_tracer_witness :
  let late := {| tracing.serviceName := Some "product-service";
                 tracing.serviceVersion := Some "2.0.0";
                 tracing.otlpEndpoint := None |} in
  let w1 := (tracing.createSpan "boot" tracing.no_options world0).2 in
  tracer w1 = Some (tracing.lazy_tracer world0)
  /\ (tracing.initTracer late w1).1 = Normal (tracing.lazy_tracer world0).
Proof.
  exact (first_span_fixes_the_tracer "boot" tracing.no_options
           {| tracing.serviceName := Some "product-service";
              tracing.serviceVersion := Some "2.0.0";
              tracing.otlpEndpoint := None |} world0 eq_refl).
Defined.

Lemma processMessage_sends_only_its_ack_witness :
  let m := processMessage consumer0 "events:user" "1-0" ["data"; registered_payload] in
  Cmd (XACK "events:user" "product-group" "1-0") ∈ effects m world1
  /\ XACK "events:user" "product-group" "1-0"
     = XACK "events:user" (consumerGroup consumer0) "1-0".
Proof.
  assert (H : Cmd (XACK "events:user" "product-group" "1-0")
              ∈ effects (processMessage consumer0 "events:user" "1-0"
                           ["data"; registered_payload]) world1)
    by (vm_compute; is_in).
  split; [exact H|].
  exact (processMessage_sends_only_its_ack consumer0 "events:user" "1-0"
           ["data"; registered_payload] world1 _ H).
Defined.

Lemma processMessage_invokes_only_the_decoded_envelope_witness :
  decode ["data"; registered_payload] = Normal registered_envelope
  /\ is_Some (Map_get (handlers consumer0) (eventType registered_envelope)).
Proof.
  assert (H : Invoke registered_envelope
              ∈ effects (processMessage consumer0 "events:user" "1-0"
                           ["data"; registered_payload]) world1)
    by (vm_compute; is_in).
  exact (proj2 (processMessage_invokes_only_the_decoded_envelope consumer0
                  "events:user" "1-0" ["data"; registered_payload] world1 _ H)).
Defined.

Lemma payload_without_properties_witness :
  let m := processMessage consumer0 "events:user" "1-0" ["data"; "5"] in
  decode ["data"; "5"] = Normal (either_dialect ∅)
  /\ (m world1).1 = Normal tt
  /\ invokes_no_handler m world1
  /\ acknowledges m "events:user" "product-group" "1-0" world1.
Proof.
  apply (payload_without_properties_is_acknowledged consumer0 "events:user" "1-0"
           ["data"; "5"] world1 (JNum 5)); vm_compute; reflexivity.
Defined.

Lemma null_payload_witness :
  let m := processMessage consumer0 "events:user" "1-0" ["data"; "null"] in
  (m world1).1 = Normal tt
  /\ effects m world1
     = [failure_log "events:user" "1-0"
          (JStr "Cannot read properties of null (reading 'eventId')")]
  /\ leaves_unacknowledged m "events:user" "product-group" "1-0" world1.
Proof.
  apply (null_payload_is_left_pending consumer0 "events:user" "1-0"
           ["data"; "null"] world1); vm_compute; reflexivity.
Defined.

Lemma last_field_wins_witness :
  parse_fields ["data"; "{}"; "data"; "null"] ∅ !! "data" = Some (JStr "null").
Proof.
  apply (last_field_wins ["data"; "{}"] "data" "null"); [reflexivity | discriminate].
Defined.

Lemma thrown_undefined_witness :
  let m := process_messages rejecting_consumer "events:order"
             [("2-0", ["data"; created_payload]); ("3-0", ["data"; created_payload])] in
  (m world1).1
  = Throw (TypeError "Cannot read properties of undefined (reading 'message')")
  /\ broker (m world1).2 = broker world1.
Proof.
  destruct (thrown_undefined_aborts_the_batch rejecting_consumer "events:order" "2-0"
              ["data"; created_payload] [("3-0", ["data"; created_payload])] world1
              created_envelope (fun _ => Throw JUndefined) JUndefined
              (TypeError "Cannot read properties of undefined (reading 'message')"))
    as (R & _ & B & _); [vm_compute; reflexivity ..|].
  split; [exact R | exact B].
Defined.

Lemma loop_backs_off_witness :
  let m := consume_loop 3 running_consumer in
  (m world_down).1 = Normal tt
  /\ effects m world_down
     = concat (replicate 3 (failed_turn running_consumer "Connection is closed."))
  /\ clock (m world_down).2 = 15000%N
  /\ broker (m world_down).2 = broker world_down.
Proof.
  exact (loop_backs_off_while_broker_is_down 3 running_consumer world_down
           "Connection is closed." eq_refl eq_refl).
Defined.

Lemma subscribing_again_witness :
  let this := new "product-service" "product-group" 4242 in
  let first : EventHandler := fun _ => Throw (Error_ "Error" "out of stock") in
  let second : EventHandler := fun _ => Normal tt in
  let '(_, this1, w1) := subscribe this "order.created" first world0 in
  let '(r, this2, w2) := subscribe this1 "order.created" second w1 in
  r = Normal tt
  /\ handlers this2 !! "order.created" = Some second
  /\ streams this2 = streams this1
  /\ groups (broker w2) = groups (broker w1)
  /\ ("events:order", "product-group") ∈ groups (broker w2)
  /\ events_since w1 w2 = [Cmd (XGROUP_CREATE "events:order" "product-group")].
Proof.
  exact (subscribing_again_replaces_the_handler
           (new "product-service" "product-group" 4242) "order.created"
           (fun _ => Throw (Error_ "Error" "out of stock")) (fun _ => Normal tt)
           world0 eq_refl).
Defined.

Lemma stream_name_witness :
  getStreamName "user.registered" = "events:user"
  /\ getStreamName "user" = "events:user"
  /\ forall service prefix,
       EventPublisher.getStreamName (EventPublisher.new service (Some prefix))
         "user.registered"
       = prefix +:+ ":" +:+ "user" +:+ "s".
Proof.
  exact (stream_name_is_the_domain "user" "registered" eq_refl).
Defined.

Lemma publish_fails_witness :
  let m := EventPublisher.publish publisher0 "order.created" order None in
  (m world_down).1 = Throw (Error_ "Error" "Connection is closed.")
  /\ broker (m world_down).2 = broker world_down.
Proof.
  destruct (publish_fails_with_the_broker publisher0 "order.created" order None
              world_down "Connection is closed." eq_refl) as (R & _ & B & _).
  split; [exact R | exact B].
Defined.

Lemma published_entry_witness :
  exists fields,
    last (entries (broker (EventPublisher.publish publisher0 "order.created" order
                             (Some correlated_options) world_in_request).2))
    = Some ("events:orders", EventPublisher.next_id world_in_request, fields)
    /\ decode fields = Normal correlated.
Proof.
  apply (published_entry_decodes_to_the_envelope publisher0 "order.created" order
           (Some correlated_options) world_in_request);
    first [ discriminate | vm_compute; reflexivity ].
Defined.

Lemma plain_client_witness :
  let payload := JSON_stringify (envelope_object correlated) in
  let m := RedisStreamsClient.publish "events:orders" correlated in
  (m world0).1 = Normal (EventPublisher.next_id world0)
  /\ decode ["payload"; payload] = Normal correlated.
Proof.
  destruct (plain_client_entry_decodes_to_the_envelope "events:orders" correlated
              world0) as (R & _ & _ & D).
  - reflexivity.
  - constructor; vm_compute; reflexivity.
  - constructor; first [ vm_compute; reflexivity
                       | left; vm_compute; reflexivity
                       | right; vm_compute; reflexivity ].
  - vm_compute. reflexivity.
  - split; [exact R | exact D].
Defined.

Lemma poll_delivers_witness :
  let m := poll order_consumer in
  (m world_waiting).1 = Normal tt
  /\ Invoke created_envelope ∈ effects m world_waiting
  /\ pending (broker (m world_waiting).2) = []
  /\ acked (broker (m world_waiting).2) = [("events:order", "product-group", "1-0")]
  /\ client.new_entries 10 "events:order" "product-group" (broker (m world_waiting).2)
     = [].
Proof.
  destruct (poll_delivers_the_waiting_entry order_consumer "events:order" "1-0"
              ["data"; created_payload] world_waiting created_envelope
              (fun _ => Normal tt)) as (R & E & P & A & W);
    try (vm_compute; reflexivity).
  - apply (bool_decide_unpack _). vm_compute. exact I.
  - split; [exact R|]. split; [rewrite E; is_in|].
    split; [exact P|]. split; [exact A | exact W].
Defined.

Lemma published_event_witness :
  let m := (RedisStreamsClient.publish "events:order" correlated;;
            poll order_consumer) : M unit in
  (m world_subscribed).1 = Normal tt
  /\ Invoke correlated ∈ effects m world_subscribed
  /\ ("events:order", "product-group", "1-0") ∈ acked (broker (m world_subscribed).2).
Proof.
  destruct (published_event_reaches_its_handler order_consumer "events:order"
              correlated (fun _ => Normal tt) world_subscribed)
    as (R & E & A & _); try (vm_compute; reflexivity).
  - apply (bool_decide_unpack _). vm_compute. exact I.
  - apply not_elem_of_nil.
  - apply not_elem_of_nil.
  - constructor; vm_compute; reflexivity.
  - constructor; first [ vm_compute; reflexivity
                       | left; vm_compute; reflexivity
                       | right; vm_compute; reflexivity ].
  - split; [exact R|]. split; [exact E | exact A].
Defined.

Lemma missing_group_witness :
  let m := poll order_consumer in
  (m world0).1 = Normal tt
  /\ effects m world0
     = failed_turn order_consumer "NOGROUP No such key or consumer group"
  /\ broker (m world0).2 = broker world0.
Proof.
  destruct (missing_group_starves_every_stream order_consumer "events:order" world0)
    as (R & E & _ & B).
  - reflexivity.
  - apply (bool_decide_unpack _). vm_compute. exact I.
  - apply not_elem_of_nil.
  - split; [exact R|]. split; [exact E | exact B].
Defined.

End further_examples.
